(** * The local-model agent controller (local-model/A.py)

    A shallow embedding of the decision pipeline of [local-model/A.py]:
    the bracket-matching extractor, the decision normalizer, the command
    safety gate, the command runner, the retry loop and the envelope
    builder, followed by the properties stated about them.

    Python values are dynamically typed, so every function takes and
    returns [pyval]; an operation that can raise returns a [result].
    A dict is a [gmap string pyval]: equality of maps is Python's [==]
    on dicts.  A [str] is a [string] whose characters are code points
    below 256.  The text generator, the process launcher and
    [json.loads] are external: they are variables of the sections that
    use them. *)

From Stdlib Require Import String Ascii ZArith Bool Lia.
From stdpp Require Import base option list strings gmap fin_maps.

Set Warnings "-register-all".

(** ** Values and exceptions *)

(** A decoded JSON document, as [json.loads] builds it.  A float is kept
    as its IEEE-754 binary64 bit pattern. *)
Inductive pyval : Type :=
| PNone
| PBool (b : bool)
| PInt (z : Z)
| PFloat (bits : Z)
| PStr (s : string)
| PList (l : list pyval)
| PDict (d : gmap string pyval).

Inductive exn : Type :=
| TypeError (msg : string)
| KeyError (key : string)
| AttributeError (msg : string)
| JSONDecodeError (msg : string)
| OSError (msg : string).

(** [str(e)] for an exception [e]. *)
Definition exn_str (e : exn) : string :=
  match e with
  | TypeError m | AttributeError m | JSONDecodeError m | OSError m => m
  | KeyError k => "'" +:+ k +:+ "'"
  end.

Inductive result (A : Type) : Type :=
| Ok (a : A)
| Raise (e : exn).
Arguments Ok {A} a.
Arguments Raise {A} e.

#[global] Instance result_ret : MRet result := @Ok.
#[global] Instance result_bind : MBind result :=
  fun A B f m => match m with Ok a => f a | Raise e => Raise e end.

(** [type(v).__name__] *)
Definition type_name (v : pyval) : string :=
  match v with
  | PNone => "NoneType"
  | PBool _ => "bool"
  | PInt _ => "int"
  | PFloat _ => "float"
  | PStr _ => "str"
  | PList _ => "list"
  | PDict _ => "dict"
  end.

(** [str(type(v))] *)
Definition type_str (v : pyval) : string :=
  "<class '" +:+ type_name v +:+ "'>".

Definition is_str (v : pyval) : bool :=
  match v with PStr _ => true | _ => false end.
Definition is_list (v : pyval) : bool :=
  match v with PList _ => true | _ => false end.
Definition is_bool (v : pyval) : bool :=
  match v with PBool _ => true | _ => false end.
Definition is_dict (v : pyval) : bool :=
  match v with PDict _ => true | _ => false end.
Definition is_none (v : pyval) : bool :=
  match v with PNone => true | _ => false end.

(** [v == s] for a string constant [s]. *)
Definition py_eq_str (v : pyval) (s : string) : bool :=
  match v with PStr t => String.eqb t s | _ => false end.

(** Truth value of an object: [bool(v)]. *)
Definition py_truthy (v : pyval) : bool :=
  match v with
  | PNone => false
  | PBool b => b
  | PInt z => negb (z =? 0)%Z
  | PFloat bits => negb (bits mod 2 ^ 63 =? 0)%Z
  | PStr s => negb (String.eqb s "")
  | PList l => match l with [] => false | _ => true end
  | PDict d => negb (bool_decide (d = ∅))
  end.

(** [len(v)] *)
Definition py_len (v : pyval) : result nat :=
  match v with
  | PStr s => Ok (String.length s)
  | PList l => Ok (length l)
  | PDict d => Ok (size d)
  | _ => Raise (TypeError ("object of type '" +:+ type_name v +:+ "' has no len()"))
  end.

(** ** Strings *)

(** [b in s] for two strings: [b] occurs in [s] as a contiguous run. *)
Fixpoint str_contains (b s : string) : bool :=
  String.prefix b s ||
  match s with
  | EmptyString => false
  | String _ s' => str_contains b s'
  end.

(** The specification of [in]: [s] splits around an occurrence of [b]. *)
Definition substring_of (b s : string) : Prop :=
  exists l r, s = l +:+ b +:+ r.

(** [c.isspace()] for a character below 256. *)
Definition py_isspace (c : ascii) : bool :=
  let n := nat_of_ascii c in
  ((9 <=? n) && (n <=? 13)) || ((28 <=? n) && (n <=? 32))
  || (n =? 133) || (n =? 160).

Fixpoint lstrip (s : string) : string :=
  match s with
  | EmptyString => EmptyString
  | String c s' => if py_isspace c then lstrip s' else s
  end.

Fixpoint rstrip (s : string) : string :=
  match s with
  | EmptyString => EmptyString
  | String c s' =>
      match rstrip s' with
      | EmptyString => if py_isspace c then EmptyString else String c EmptyString
      | r => String c r
      end
  end.

(** [s.strip()] *)
Definition strip (s : string) : string := rstrip (lstrip s).

(** A string is blank when it is empty or all whitespace. *)
Fixpoint blank (s : string) : Prop :=
  match s with
  | EmptyString => True
  | String c s' => py_isspace c = true /\ blank s'
  end.

(** [b in v] for a string [b] and any object [v]. *)
Definition py_contains (b : string) (v : pyval) : result bool :=
  match v with
  | PStr s => Ok (str_contains b s)
  | PList l => Ok (existsb (fun x => py_eq_str x b) l)
  | PDict d => Ok (bool_decide (is_Some (d !! b)))
  | _ => Raise (TypeError ("argument of type '" +:+ type_name v +:+ "' is not iterable"))
  end.

(** [any(f(b) for b in l)]: stops at the first true, or at the first
    exception. *)
Fixpoint py_any (f : string -> result bool) (l : list string) : result bool :=
  match l with
  | [] => Ok false
  | b :: l' =>
      match f b with
      | Ok true => Ok true
      | Ok false => py_any f l'
      | Raise e => Raise e
      end
  end.

(** ** CommandSafetyGate *)

Definition banned : list string :=
  ["&&"; "|"; ";"; ">"; "<"; "$"; "`"; "rm "; "del "; "shutdown"; "format"].

Definition is_safe_command (command : pyval) : result bool :=
  if negb (py_truthy command) then Ok false
  else
    n ← py_len command;
    if 200 <? n then Ok false
    else
      hit ← py_any (fun b => py_contains b command) banned;
      Ok (negb hit).

(** The markers of chaining, redirection and substitution. *)
Definition shell_markers : list string :=
  [";"; "|"; "&&"; ">"; "<"; "`"; "$"].

(** The commands the gate must refuse: absent, empty, longer than 200
    characters, or holding a shell marker. *)
Inductive refused : pyval -> Prop :=
| refused_absent : refused PNone
| refused_empty : refused (PStr EmptyString)
| refused_long s : 200 < String.length s -> refused (PStr s)
| refused_marker s b : b ∈ shell_markers -> substring_of b s -> refused (PStr s).

(** ** StructuredValueExtractor *)

Definition is_open (c : ascii) : bool :=
  Ascii.eqb c "{" || Ascii.eqb c "[".

(** The table [pairs = {"{": "}", "[": "]"}], read at an opening bracket. *)
Definition pairs (c : ascii) : ascii :=
  if Ascii.eqb c "{" then "}"%char else "]"%char.

(** [[m.start() for m in re.finditer(r"[\{\[]", s)]], counting from [i]. *)
Fixpoint starts_from (i : nat) (cs : list ascii) : list nat :=
  match cs with
  | [] => []
  | c :: cs' =>
      if is_open c then i :: starts_from (S i) cs' else starts_from (S i) cs'
  end.

(** [s[i:j]] *)
Definition slice (cs : list ascii) (i j : nat) : string :=
  string_of_list_ascii (take (j - i) (drop i cs)).

Section Extractor.
Variable json_loads : string -> result pyval.

(** The inner loop [for i in range(start, len(s))], entered at index [i]
    with the characters [rest] still to read.  [Some v] is [return v];
    [None] is a [break] or the end of the loop. *)
Fixpoint scan (cs : list ascii) (start : nat)
    (rest : list ascii) (i : nat) (stack : list ascii) : option pyval :=
  match rest with
  | [] => None
  | c :: rest' =>
      if is_open c then scan cs start rest' (S i) (pairs c :: stack)
      else
        match stack with
        | top :: stack' =>
            if Ascii.eqb c top then
              match stack' with
              | [] =>
                  match json_loads (slice cs start (S i)) with
                  | Ok v => Some v
                  | Raise _ => None
                  end
              | _ => scan cs start rest' (S i) stack'
              end
            else scan cs start rest' (S i) stack
        | [] => scan cs start rest' (S i) stack
        end
  end.

(** The outer loop [for start in starts]. *)
Fixpoint for_starts (cs : list ascii) (starts : list nat) : pyval :=
  match starts with
  | [] => PNone
  | start :: starts' =>
      match scan cs start (drop start cs) start [] with
      | Some v => v
      | None => for_starts cs starts'
      end
  end.

Definition extract_json_from_text (s : string) : pyval :=
  let cs := list_ascii_of_string s in
  for_starts cs (starts_from 0 cs).
End Extractor.

(** *** Balanced spans, as the design describes them

    Walking a span with a stack of expected closers: an opener pushes its
    closer, a character equal to the top of the stack pops it, any other
    character is skipped. *)
Definition walk_step (stack : list ascii) (c : ascii) : list ascii :=
  if is_open c then pairs c :: stack
  else
    match stack with
    | top :: stack' => if Ascii.eqb c top then stack' else stack
    | [] => []
    end.

Definition walk (stack : list ascii) (cs : list ascii) : list ascii :=
  fold_left walk_step cs stack.

(** A span is a balanced candidate when it starts at an opening bracket and
    the stack is empty at its last character and at no earlier one. *)
Definition balanced_chars (cs : list ascii) : Prop :=
  (exists c cs', cs = c :: cs' /\ is_open c = true) /\
  walk [] cs = [] /\
  forall p q, cs = p ++ q -> p <> [] -> q <> [] -> walk [] p <> [].

Definition balanced (span : string) : Prop :=
  balanced_chars (list_ascii_of_string span).

(** The number of characters the inner loop reads from [rest] before the
    stack first empties on a pop, if it ever does. *)
Fixpoint close_len (rest : list ascii) (stack : list ascii) : option nat :=
  match rest with
  | [] => None
  | c :: rest' =>
      if is_open c then S <$> close_len rest' (pairs c :: stack)
      else
        match stack with
        | top :: stack' =>
            if Ascii.eqb c top then
              match stack' with
              | [] => Some 1
              | _ => S <$> close_len rest' stack'
              end
            else S <$> close_len rest' stack
        | [] => S <$> close_len rest' stack
        end
  end.

(** The span the inner loop hands to the decoder when entered at [start]. *)
Definition candidate (cs : list ascii) (start : nat) : option string :=
  (fun n => slice cs start (start + n)) <$> close_len (drop start cs) [].

(** What the decoder makes of a candidate span: its value, or nothing
    when there is no span or the span does not parse. *)
Definition decoded (json_loads : string -> result pyval) (span : option string)
    : option pyval :=
  match span with
  | Some text =>
      match json_loads text with
      | Ok v => Some v
      | Raise _ => None
      end
  | None => None
  end.

(** ** DecisionNormalizer *)

(** The five keys of the canonical decision schema. *)
Definition schema_keys : list string :=
  ["plan"; "action"; "expose_to_user"; "data"; "command"].

(** [d.get(k)] *)
Definition dict_get (d : gmap string pyval) (k : string) : pyval :=
  default PNone (d !! k).

(** [d.get(k, dflt)] *)
Definition dict_get_or (d : gmap string pyval) (k : string) (dflt : pyval) : pyval :=
  default dflt (d !! k).

(** [k in d] *)
Definition dict_has (d : gmap string pyval) (k : string) : bool :=
  bool_decide (is_Some (d !! k)).

(** [d[k]] *)
Definition dict_getitem (d : gmap string pyval) (k : string) : result pyval :=
  match d !! k with
  | Some v => Ok v
  | None => Raise (KeyError k)
  end.

(** [d.setdefault(k, v)], for its effect on [d]. *)
Definition dict_setdefault (d : gmap string pyval) (k : string) (v : pyval)
    : gmap string pyval :=
  if dict_has d k then d else <[k := v]> d.

(** [isinstance(cmd, str) and cmd.strip()], as a truth value. *)
Definition nonblank_str (cmd : pyval) : bool :=
  match cmd with
  | PStr s => py_truthy (PStr (strip s))
  | _ => false
  end.

(** Lines 107-108. *)
Definition coerce_plan (coerced : gmap string pyval) : gmap string pyval :=
  if is_list (dict_get coerced "plan") then coerced
  else <["plan" := PList []]> coerced.

(** Lines 110-117. *)
Definition coerce_action (coerced : gmap string pyval) : gmap string pyval :=
  let action := dict_get coerced "action" in
  if negb (py_eq_str action "answer" || py_eq_str action "command") then
    let cmd := dict_get coerced "command" in
    if nonblank_str cmd then <["action" := PStr "command"]> coerced
    else <["action" := PStr "answer"]> coerced
  else coerced.

(** Lines 119-120. *)
Definition coerce_expose (coerced : gmap string pyval) : gmap string pyval :=
  if is_bool (dict_get coerced "expose_to_user") then coerced
  else <["expose_to_user" := PBool true]> coerced.

(** Lines 123-126: the command branch. *)
Definition coerce_command_mode (coerced : gmap string pyval) : gmap string pyval :=
  let coerced :=
    if is_str (dict_get coerced "command") then coerced
    else <["command" := PNone]> coerced in
  dict_setdefault coerced "data" PNone.

(** [{k: v for k, v in agent_json.items() if k not in schema_keys}] *)
Definition payload_of (agent_json : gmap string pyval) : gmap string pyval :=
  filter (fun kv => kv.1 ∉ schema_keys) agent_json.

(** Lines 129-132: the answer branch. *)
Definition coerce_answer_mode (agent_json coerced : gmap string pyval)
    : gmap string pyval :=
  let coerced :=
    if negb (dict_has coerced "data") || is_none (dict_get coerced "data") then
      let payload := payload_of agent_json in
      <["data" := if py_truthy (PDict payload) then PDict payload
                  else dict_get coerced "data"]> coerced
    else coerced in
  dict_setdefault coerced "command" PNone.

Definition _coerce_agent_json (agent_json : pyval) : result pyval :=
  match agent_json with
  | PDict d =>
      if dict_has d "error" then Ok agent_json
      else
        let coerced := coerce_expose (coerce_action (coerce_plan d)) in
        action ← dict_getitem coerced "action";
        if py_eq_str action "command" then Ok (PDict (coerce_command_mode coerced))
        else Ok (PDict (coerce_answer_mode d coerced))
  | _ =>
      Ok (PDict (<["error" := PStr "invalid_json_type"]>
                 (<["detail" := PStr (type_str agent_json)]> ∅)))
  end.

(** *** The normalized decision, key by key

    What the normalizer stores under each key of a mapping [d] that has
    no [error] key, as a function of [d] alone. *)

Definition resolved_action (d : gmap string pyval) : string :=
  if py_eq_str (dict_get d "action") "answer" then "answer"
  else if py_eq_str (dict_get d "action") "command" then "command"
  else if nonblank_str (dict_get d "command") then "command"
  else "answer".

Definition plan_of (d : gmap string pyval) : pyval :=
  if is_list (dict_get d "plan") then dict_get d "plan" else PList [].

Definition expose_of (d : gmap string pyval) : pyval :=
  if is_bool (dict_get d "expose_to_user") then dict_get d "expose_to_user"
  else PBool true.

Definition command_of (d : gmap string pyval) : pyval :=
  if String.eqb (resolved_action d) "command" then
    if is_str (dict_get d "command") then dict_get d "command" else PNone
  else dict_get d "command".

Definition data_of (d : gmap string pyval) : pyval :=
  if String.eqb (resolved_action d) "command" then dict_get d "data"
  else if is_none (dict_get d "data") then
    if py_truthy (PDict (payload_of d)) then PDict (payload_of d) else PNone
  else dict_get d "data".

Definition decision_lookup (d : gmap string pyval) (k : string) : option pyval :=
  if decide (k = "plan") then Some (plan_of d)
  else if decide (k = "action") then Some (PStr (resolved_action d))
  else if decide (k = "expose_to_user") then Some (expose_of d)
  else if decide (k = "command") then Some (command_of d)
  else if decide (k = "data") then Some (data_of d)
  else d !! k.

(** A canonical decision: every schema key is present, [plan] is a list,
    [action] is one of the two action names and [expose_to_user] is a
    boolean. *)
Definition canonical (d : gmap string pyval) : Prop :=
  (exists l, d !! "plan" = Some (PList l)) /\
  (d !! "action" = Some (PStr "answer") \/ d !! "action" = Some (PStr "command")) /\
  (exists b, d !! "expose_to_user" = Some (PBool b)) /\
  is_Some (d !! "data") /\
  is_Some (d !! "command").

(** ** The outside world

    The generator and the process launcher are external.  Each is a
    function of an opaque state; the world also logs every prompt sent to
    the generator and every command line handed to the launcher. *)

(** What [subprocess.run(..., capture_output=True, text=True)] returns. *)
Record completed_process : Type := {
  returncode : Z;
  stdout : string;
  stderr : string
}.

Section World.
Variables LLM OS : Type.

Record world : Type := {
  llm : LLM;
  os : OS;
  asked : list (string * string);
  launched : list string
}.
End World.
Arguments llm {LLM OS} w.
Arguments os {LLM OS} w.
Arguments asked {LLM OS} w.
Arguments launched {LLM OS} w.

(** ** CommandRunner *)

Definition rejected (reason : string) : pyval :=
  PDict (<["status" := PStr "rejected"]> (<["reason" := PStr reason]> ∅)).

Definition executed (cp : completed_process) : pyval :=
  PDict (<["status" := PStr "executed"]>
         (<["exit_code" := PInt (returncode cp)]>
          (<["stdout" := PStr (stdout cp)]>
           (<["stderr" := PStr (stderr cp)]> ∅)))).

Definition failed (e : exn) : pyval :=
  PDict (<["status" := PStr "error"]> (<["error" := PStr (exn_str e)]> ∅)).

Section Runner.
Context {LLM OS : Type}.
(** [subprocess.run(command, shell=True, capture_output=True, text=True)]:
    a completed process, or the exception of a failed launch. *)
Variable subprocess_run : string -> OS -> result completed_process * OS.

Definition run_process (command : string) (w : world LLM OS)
    : result completed_process * world LLM OS :=
  let '(r, o) := subprocess_run command (os w) in
  (r, {| llm := llm w; os := o; asked := asked w;
         launched := launched w ++ [command] |}).

Definition execute_command (command : pyval) (w : world LLM OS)
    : result pyval * world LLM OS :=
  match is_safe_command command with
  | Raise e => (Raise e, w)
  | Ok false => (Ok (rejected "unsafe command"), w)
  | Ok true =>
      match command with
      | PStr s =>
          if negb (py_truthy (PStr (strip s))) then
            (Ok (rejected "missing command"), w)
          else
            match run_process s w with
            | (Ok cp, w') => (Ok (executed cp), w')
            | (Raise e, w') => (Ok (failed e), w')
            end
      | _ => (Ok (rejected "missing command"), w)
      end
  end.
End Runner.

(** ** DecisionController *)

(** A state-and-exception monad over the world. *)
Definition M (LLM OS A : Type) : Type :=
  world LLM OS -> result A * world LLM OS.

#[global] Instance M_ret {LLM OS} : MRet (M LLM OS) :=
  fun A a w => (Ok a, w).
#[global] Instance M_bind {LLM OS} : MBind (M LLM OS) :=
  fun A B f m w =>
    match m w with
    | (Ok a, w') => f a w'
    | (Raise e, w') => (Raise e, w')
    end.

Definition lift {LLM OS A} (r : result A) : M LLM OS A :=
  fun w => (r, w).

Definition nl : string := String "010"%char EmptyString.
Definition dq : string := String "034"%char EmptyString.

Definition SYSTEM_PROMPT : string :=
  "JSON ONLY." +:+ nl +:+
  "Return ONE JSON object." +:+ nl +:+
  "No text outside JSON." +:+ nl +:+
  nl +:+
  "You MUST return this structure:" +:+ nl +:+
  "{" +:+ nl +:+
  "  " +:+ dq +:+ "plan" +:+ dq +:+ ": [" +:+ dq +:+ "step1" +:+ dq +:+ ", "
    +:+ dq +:+ "step2" +:+ dq +:+ "]," +:+ nl +:+
  "  " +:+ dq +:+ "action" +:+ dq +:+ ": " +:+ dq +:+ "answer" +:+ dq +:+ " | "
    +:+ dq +:+ "command" +:+ dq +:+ "," +:+ nl +:+
  "  " +:+ dq +:+ "expose_to_user" +:+ dq +:+ ": true | false," +:+ nl +:+
  "  " +:+ dq +:+ "data" +:+ dq +:+ ": {...} | null," +:+ nl +:+
  "  " +:+ dq +:+ "command" +:+ dq +:+ ": " +:+ dq +:+ "..." +:+ dq +:+ " | null" +:+ nl +:+
  "}" +:+ nl +:+
  nl +:+
  "Rules:" +:+ nl +:+
  "- plan is always required" +:+ nl +:+
  "- expose_to_user decides visibility (prefer true unless asked to hide)" +:+ nl +:+
  "- command is used only if action == command; if exist:command response will be provided" +:+ nl +:+
  "- If unsure, return {" +:+ dq +:+ "error" +:+ dq +:+ ":" +:+ dq +:+ "unknown" +:+ dq +:+ "}" +:+ nl.

(** [v.get(k, dflt)] on an object of any type. *)
Definition py_get (v : pyval) (k : string) (dflt : pyval) : result pyval :=
  match v with
  | PDict d => Ok (dict_get_or d k dflt)
  | _ => Raise (AttributeError
                  ("'" +:+ type_name v +:+ "' object has no attribute 'get'"))
  end.

(** [v[k]] on an object of any type, for a string [k]. *)
Definition py_getitem (v : pyval) (k : string) : result pyval :=
  match v with
  | PDict d => dict_getitem d k
  | PStr _ => Raise (TypeError "string indices must be integers, not 'str'")
  | PList _ => Raise (TypeError "list indices must be integers or slices, not str")
  | _ => Raise (TypeError ("'" +:+ type_name v +:+ "' object is not subscriptable"))
  end.

Definition invalid_json (last_error : pyval) : pyval :=
  PDict (<["error" := PStr "invalid_json"]> (<["detail" := last_error]> ∅)).

Section Controller.
Context {LLM OS : Type}.
Variable json_loads : string -> result pyval.
(** [llm.create_chat_completion] with the system and user messages,
    reduced to the [content] of its first choice. *)
Variable create_chat_completion : string -> string -> LLM -> string * LLM.
Variable subprocess_run : string -> OS -> result completed_process * OS.

Definition generate (prompt : string) (w : world LLM OS)
    : string * world LLM OS :=
  let '(raw, l) := create_chat_completion SYSTEM_PROMPT prompt (llm w) in
  (raw, {| llm := l; os := os w;
           asked := asked w ++ [(SYSTEM_PROMPT, prompt)];
           launched := launched w |}).

(** The loop [for _ in range(max_retries)] with [n] rounds left. *)
Fixpoint ask_model_loop (n : nat) (prompt : string) (last_error : pyval)
    (w : world LLM OS) : pyval * world LLM OS :=
  match n with
  | O => (invalid_json last_error, w)
  | S n' =>
      let '(raw, w1) := generate prompt w in
      match json_loads raw with
      | Ok v => (v, w1)
      | Raise e =>
          let extracted := extract_json_from_text json_loads raw in
          if negb (is_none extracted) then (extracted, w1)
          else ask_model_loop n' prompt (PStr (exn_str e)) w1
      end
  end.

Definition ask_model (prompt : string) (max_retries : Z) (w : world LLM OS)
    : pyval * world LLM OS :=
  ask_model_loop (Z.to_nat max_retries) prompt PNone w.

Definition process_agent_output (agent_json : pyval) : M LLM OS pyval :=
  agent_json ← lift (_coerce_agent_json agent_json);
  has_error ← lift (py_contains "error" agent_json);
  if (has_error : bool) then mret agent_json
  else
    action ← lift (py_get agent_json "action" PNone);
    expose ← lift (py_get agent_json "expose_to_user" (PBool false));
    plan ← lift (py_getitem agent_json "plan");
    let result : gmap string pyval :=
      <["plan" := plan]> (<["expose_to_user" := expose]> ∅) in
    if py_eq_str action "command" then
      cmd ← lift (py_get agent_json "command" PNone);
      execution ← execute_command subprocess_run cmd;
      mret (PDict (<["execution" := execution]> result))
    else if py_eq_str action "answer" then
      data ← lift (py_get agent_json "data" PNone);
      mret (PDict (<["data" := data]> result))
    else mret (PDict result).

(** The default of [max_retries]. *)
Definition max_retries_default : Z := 3.

Definition ask (prompt : string) : M LLM OS pyval :=
  fun w =>
    let '(agent_output, w1) := ask_model prompt max_retries_default w in
    process_agent_output agent_output w1.
End Controller.

(** ** The command-line entry point

    [main] reads one line and writes to the console.  The line read is an
    argument; the console is the list of texts written, one entry per
    call that writes: the prompt of [input], then each [print].
    [json.dumps(_, indent=2)] is external. *)

Definition USER_HEADER : string := nl +:+ "[USER]".
Definition INTERNAL_HEADER : string := nl +:+ "[INTERNAL]".
Definition NO_RESPONSE : string := "(no user-visible response)".

Section Console.
Context {LLM OS : Type}.
Variable json_loads : string -> result pyval.
Variable create_chat_completion : string -> string -> LLM -> string * LLM.
Variable subprocess_run : string -> OS -> result completed_process * OS.
Variable json_dumps : pyval -> string.

(** Lines 206-214: what the user is shown. *)
Definition user_section (final : pyval) (console : list string)
    : result unit * list string :=
  match py_get final "expose_to_user" PNone with
  | Raise e => (Raise e, console)
  | Ok flag =>
      if py_truthy flag then
        let console := console ++ [USER_HEADER] in
        match py_contains "data" final with
        | Raise e => (Raise e, console)
        | Ok true =>
            match py_getitem final "data" with
            | Raise e => (Raise e, console)
            | Ok data => (Ok tt, console ++ [json_dumps data])
            end
        | Ok false =>
            match py_contains "execution" final with
            | Raise e => (Raise e, console)
            | Ok true =>
                match py_getitem final "execution" with
                | Raise e => (Raise e, console)
                | Ok execution => (Ok tt, console ++ [json_dumps execution])
                end
            | Ok false => (Ok tt, console)
            end
        end
      else (Ok tt, console ++ [USER_HEADER; NO_RESPONSE])
  end.

Definition main (user_prompt : string) (w : world LLM OS)
    (console : list string) : result unit * world LLM OS * list string :=
  let console := console ++ [">> "] in
  let '(agent_output, w1) :=
    ask_model json_loads create_chat_completion user_prompt
      max_retries_default w in
  match process_agent_output subprocess_run agent_output w1 with
  | (Raise e, w2) => (Raise e, w2, console)
  | (Ok final, w2) =>
      let console := console ++ [INTERNAL_HEADER; json_dumps final] in
      let '(r, console) := user_section final console in
      (r, w2, console)
  end.
End Console.

(** ** Test doubles

    Closed instances of the external collaborators, used to run the
    definitions on concrete inputs. *)

(** Writes a JSON text with ['] for the double quote. *)
Fixpoint json_text (s : string) : string :=
  match s with
  | EmptyString => EmptyString
  | String c s' =>
      String (if Ascii.eqb c "'" then "034"%char else c) (json_text s')
  end.

(** A decoder that accepts exactly the documents of a table. *)
Fixpoint json_loads_table (table : list (string * pyval)) (s : string)
    : result pyval :=
  match table with
  | [] => Raise (JSONDecodeError "Expecting value: line 1 column 1 (char 0)")
  | (doc, v) :: table' =>
      if String.eqb s doc then Ok v else json_loads_table table' s
  end.

(** A generator that replays canned responses, then empty text. *)
Definition canned (_ _ : string) (responses : list string)
    : string * list string :=
  match responses with
  | [] => (EmptyString, [])
  | r :: responses' => (r, responses')
  end.

(** A launcher under which every process exits with status 0 and echoes
    its command line. *)
Definition echo_run (command : string) (o : unit)
    : result completed_process * unit :=
  (Ok {| returncode := 0; stdout := command; stderr := EmptyString |}, o).

(** A launcher that always fails to start the process. *)
Definition broken_run (command : string) (o : unit)
    : result completed_process * unit :=
  (Raise (OSError "[Errno 8] Exec format error"), o).

Definition world0 (responses : list string) : world (list string) unit :=
  {| llm := responses; os := tt; asked := []; launched := [] |}.

Definition doc_x1 : string := json_text "{'x':1}".
Definition val_x1 : pyval := PDict (<["x" := PInt 1]> ∅).
Definition table_x1 : list (string * pyval) := [(doc_x1, val_x1)].

(** A mapping that names the action "answer" and still carries a command. *)
Definition answer_with_command : gmap string pyval :=
  <["action" := PStr "answer"]> (<["command" := PStr "dir"]> ∅).

(** The request [{"command": "dir"}] and the decision it normalizes to. *)
Definition dir_request : gmap string pyval :=
  <["command" := PStr "dir"]> ∅.

Definition dir_decision : gmap string pyval :=
  <["plan" := PList []]>
    (<["action" := PStr "command"]>
       (<["expose_to_user" := PBool true]>
          (<["data" := PNone]> (<["command" := PStr "dir"]> ∅)))).

(** Three generator replies of which the second embeds a document, and
    three that hold none. *)
Definition noisy_replies : list string :=
  ["Sure!"; "Here: {" +:+ doc_x1 +:+ " ok"; "unused"].

Definition garbage_replies : list string := ["a"; "b"; "c"].

(** A mapping carries a command when [command] is a string that is not
    blank. *)
Definition command_given (d : gmap string pyval) : Prop :=
  exists s, d !! "command" = Some (PStr s) /\ ~ blank s.

(** A request whose action is not one of the two names. *)
Definition run_request : gmap string pyval :=
  <["action" := PStr "run"]> (<["command" := PStr " ls "]> ∅).

(** A printer that shows a string in quotes, null as [null], and any
    other value by the name of its type. *)
Definition dumps_kind (v : pyval) : string :=
  match v with
  | PStr s => dq +:+ s +:+ dq
  | PNone => "null"
  | _ => "<" +:+ type_name v +:+ ">"
  end.

(** ** The retry loop, attempt by attempt *)

Section Attempts.
Context {LLM OS : Type}.
Variable json_loads : string -> result pyval.
Variable create_chat_completion : string -> string -> LLM -> string * LLM.

(** An attempt succeeds with [v] when its raw text parses directly to
    [v], or does not parse and the extractor recovers [v] from it. *)
Definition succeeds (raw : string) (v : pyval) : Prop :=
  json_loads raw = Ok v \/
  (exists e, json_loads raw = Raise e /\
             extract_json_from_text json_loads raw = v /\ v <> PNone).

(** An attempt fails with [reason] when its raw text does not parse, the
    extractor finds nothing, and [reason] is the text of the parse error. *)
Definition fails (raw : string) (reason : string) : Prop :=
  exists e, json_loads raw = Raise e /\
            extract_json_from_text json_loads raw = PNone /\
            reason = exn_str e.

(** The raw texts of the first [n] generator calls made from [w]. *)
Fixpoint replies (n : nat) (prompt : string) (w : world LLM OS) : list string :=
  match n with
  | O => []
  | S n' =>
      let '(raw, w1) := generate create_chat_completion prompt w in
      raw :: replies n' prompt w1
  end.

(** The world after [n] generator calls made from [w]. *)
Fixpoint after_calls (n : nat) (prompt : string) (w : world LLM OS)
    : world LLM OS :=
  match n with
  | O => w
  | S n' =>
      let '(_, w1) := generate create_chat_completion prompt w in
      after_calls n' prompt w1
  end.

(** The value of [last_error] after the raw texts [raws] all failed. *)
Definition last_error_after (last_error : pyval) (raws : list string) : pyval :=
  fold_left
    (fun acc raw =>
       match json_loads raw with
       | Raise e => PStr (exn_str e)
       | Ok _ => acc
       end) raws last_error.
End Attempts.

(** * Properties *)

(** ** Strings *)

Lemma prefix_split (p s : string) :
  String.prefix p s = true <-> exists r, s = p +:+ r.
Proof.
  revert s. induction p as [|c p IH]; intros s; simpl.
  - split; [intros _; exists s; reflexivity | intros _; by destruct s].
  - destruct s as [|c' s]; simpl.
    + split; [done | intros [r Hr]; discriminate].
    + destruct (ascii_dec c c') as [->|Hne].
      * rewrite IH. split; intros [r Hr]; exists r.
        -- rewrite Hr. reflexivity.
        -- injection Hr. done.
      * split; [done | intros [r Hr]; injection Hr; congruence].
Qed.

Lemma str_contains_spec (b s : string) :
  str_contains b s = true <-> substring_of b s.
Proof.
  unfold substring_of. induction s as [|c s IH]; cbn [str_contains].
  - rewrite orb_false_r, prefix_split. split.
    + intros [r Hr]. exists EmptyString, r. exact Hr.
    + intros [[|c l] [r Hr]]; [exists r; exact Hr | discriminate].
  - rewrite orb_true_iff, prefix_split, IH. split.
    + intros [[r Hr]|(l & r & Hr)].
      * exists EmptyString, r. exact Hr.
      * exists (String c l), r. rewrite Hr. reflexivity.
    + intros [[|c' l] [r Hr]].
      * left. exists r. exact Hr.
      * right. exists l, r. injection Hr. done.
Qed.

Lemma py_any_total (g : string -> bool) (l : list string) :
  py_any (fun b => Ok (g b)) l = Ok (existsb g l).
Proof.
  induction l as [|b l IH]; simpl; [done|].
  destruct (g b); [done | by rewrite IH].
Qed.

(** On a string the gate never raises: it is the plain denylist test. *)
Lemma is_safe_command_str (s : string) :
  is_safe_command (PStr s) =
  Ok (negb (String.eqb s EmptyString) && negb (200 <? String.length s)
      && negb (existsb (fun b => str_contains b s) banned)).
Proof.
  unfold is_safe_command. simpl py_truthy. rewrite negb_involutive.
  destruct (String.eqb s EmptyString); [done|].
  cbn [py_len mbind result_bind].
  destruct (200 <? String.length s); [done|].
  cbn [py_contains]. by rewrite py_any_total.
Qed.

Lemma shell_markers_banned (b : string) : b ∈ shell_markers -> b ∈ banned.
Proof.
  unfold shell_markers, banned. rewrite !elem_of_cons, elem_of_nil.
  intros H; decompose [or] H; subst; clear H; try done; set_solver.
Qed.

(** ** CommandSafetyGate *)

(** C4: the gate returns false for every command that is absent, empty,
    longer than 200 characters, or holds one of the substrings [;], [|],
    [&&], [>], [<], backtick or [$]; it returns true for the plain
    commands [dir] and [echo hello]. *)
Theorem is_safe_command_policy :
  (forall command, refused command -> is_safe_command command = Ok false) /\
  is_safe_command (PStr "dir") = Ok true /\
  is_safe_command (PStr "echo hello") = Ok true.
Proof.
  split; [|split; reflexivity].
  intros command [| |s Hlen|s b Hb Hsub]; try reflexivity.
  - rewrite is_safe_command_str.
    apply Nat.ltb_lt in Hlen. rewrite Hlen.
    by rewrite andb_false_r.
  - rewrite is_safe_command_str.
    assert (existsb (fun b => str_contains b s) banned = true) as ->.
    { apply existsb_exists. exists b. split.
      - apply list_elem_of_In. by apply shell_markers_banned.
      - by apply str_contains_spec. }
    by rewrite andb_false_r.
Qed.

Lemma is_safe_command_policy_witness :
  is_safe_command (PStr "dir && del x") = Ok false.
Proof.
  apply (proj1 is_safe_command_policy).
  apply (refused_marker _ "&&").
  - unfold shell_markers. rewrite !elem_of_cons. right; right; left; reflexivity.
  - exists "dir ", " del x". reflexivity.
Defined.

(** C9: the denylist is an exact, case-sensitive substring test, so the
    gate accepts [rm-rf /], [RM -rf /] and [DEL file]; the lowercase
    spellings with the space are refused. *)
Theorem is_safe_command_case_sensitive :
  is_safe_command (PStr "rm-rf /") = Ok true /\
  is_safe_command (PStr "RM -rf /") = Ok true /\
  is_safe_command (PStr "DEL file") = Ok true /\
  is_safe_command (PStr "rm -rf /") = Ok false /\
  is_safe_command (PStr "del file") = Ok false.
Proof. repeat split; reflexivity. Qed.

(** ** DecisionNormalizer *)

Lemma lstrip_blank (s : string) : blank (lstrip s) <-> blank s.
Proof.
  induction s as [|c s IH]; simpl; [done|].
  destruct (py_isspace c) eqn:Hc; simpl; rewrite ?Hc; [|done].
  rewrite IH. tauto.
Qed.

Lemma rstrip_empty (s : string) : rstrip s = EmptyString <-> blank s.
Proof.
  induction s as [|c s IH]; simpl; [done|].
  destruct (rstrip s) eqn:Hr.
  - destruct (py_isspace c); [tauto|]. split; [done | by intros [? _]].
  - split; [done|]. intros [_ Hb]. apply IH in Hb. discriminate.
Qed.

(** [s.strip()] is empty exactly when [s] is blank. *)
Lemma strip_empty (s : string) : strip s = EmptyString <-> blank s.
Proof. unfold strip. by rewrite rstrip_empty, lstrip_blank. Qed.

Lemma nonblank_str_spec (v : pyval) :
  nonblank_str v = true <-> exists s, v = PStr s /\ ~ blank s.
Proof.
  destruct v; simpl; try (split; [done | intros (? & ? & _); discriminate]).
  rewrite negb_true_iff, <- not_true_iff_false, String.eqb_eq, strip_empty.
  split; [eauto | by intros (? & [= <-] & ?)].
Qed.

Section NormalizerFacts.
Implicit Types d coerced : gmap string pyval.

Lemma dict_get_lookup d k v : d !! k = Some v -> dict_get d k = v.
Proof. unfold dict_get. by intros ->. Qed.

Lemma coerce_plan_lookup d k :
  coerce_plan d !! k =
  if decide (k = "plan") then Some (plan_of d) else d !! k.
Proof.
  unfold coerce_plan, plan_of, dict_get.
  destruct (d !! "plan") as [v|] eqn:Hp; simpl;
    [destruct (is_list v) eqn:Hv|]; case_decide; simplify_map_eq; done.
Qed.

Lemma coerce_action_lookup d k :
  coerce_action d !! k =
  if decide (k = "action") then Some (PStr (resolved_action d)) else d !! k.
Proof.
  unfold coerce_action, resolved_action.
  destruct (py_eq_str (dict_get d "action") "answer") eqn:Ha; simpl.
  { case_decide; [subst|done]. unfold dict_get, py_eq_str in Ha.
    destruct (d !! "action") as [[]|]; simplify_eq/=.
    by apply String.eqb_eq in Ha as ->. }
  destruct (py_eq_str (dict_get d "action") "command") eqn:Hc; simpl.
  { case_decide; [subst|done]. unfold dict_get, py_eq_str in Hc.
    destruct (d !! "action") as [[]|]; simplify_eq/=.
    by apply String.eqb_eq in Hc as ->. }
  destruct (nonblank_str (dict_get d "command"));
    case_decide; simplify_map_eq; done.
Qed.

Lemma coerce_expose_lookup d k :
  coerce_expose d !! k =
  if decide (k = "expose_to_user") then Some (expose_of d) else d !! k.
Proof.
  unfold coerce_expose, expose_of, dict_get.
  destruct (d !! "expose_to_user") as [v|] eqn:Hp; simpl;
    [destruct (is_bool v) eqn:Hv|]; case_decide; simplify_map_eq; done.
Qed.

Lemma dict_setdefault_lookup d k v j :
  dict_setdefault d k v !! j =
  if decide (j = k) then Some (default v (d !! k)) else d !! j.
Proof.
  unfold dict_setdefault, dict_has.
  case_bool_decide as Hk; case_decide; simplify_map_eq; try done.
  - by destruct Hk as [x ->].
  - destruct (d !! k) eqn:E; [|done]. destruct Hk. eauto.
Qed.

Lemma coerce_command_mode_lookup coerced k :
  coerce_command_mode coerced !! k =
  if decide (k = "command") then
    Some (if is_str (dict_get coerced "command")
          then dict_get coerced "command" else PNone)
  else if decide (k = "data") then Some (dict_get coerced "data")
  else coerced !! k.
Proof.
  unfold coerce_command_mode. rewrite dict_setdefault_lookup.
  unfold dict_get.
  destruct (coerced !! "command") as [v|] eqn:Hp; simpl;
    [destruct (is_str v) eqn:Hv|]; repeat case_decide; simplify_map_eq; done.
Qed.

Lemma coerce_answer_mode_lookup d coerced k :
  coerce_answer_mode d coerced !! k =
  if decide (k = "data") then
    Some (if is_none (dict_get coerced "data") then
            if py_truthy (PDict (payload_of d)) then PDict (payload_of d)
            else PNone
          else dict_get coerced "data")
  else if decide (k = "command") then Some (dict_get coerced "command")
  else coerced !! k.
Proof.
  unfold coerce_answer_mode. rewrite dict_setdefault_lookup.
  unfold dict_has, dict_get.
  destruct (coerced !! "data") as [v|] eqn:Hp; cbn [default].
  - rewrite (bool_decide_true (is_Some _)) by (by eexists).
    destruct v; cbn [negb orb is_none];
      repeat case_decide; simplify_map_eq; try done.
  - rewrite (bool_decide_false (is_Some _)) by (by intros [? ?]).
    cbn [negb orb is_none].
    repeat case_decide; simplify_map_eq; try done.
Qed.

Lemma dict_get_coerce_plan d k :
  k <> "plan" -> dict_get (coerce_plan d) k = dict_get d k.
Proof.
  intros Hk. unfold dict_get. rewrite coerce_plan_lookup.
  by rewrite decide_False.
Qed.

Lemma dict_get_coerce_action d k :
  k <> "action" -> dict_get (coerce_action d) k = dict_get d k.
Proof.
  intros Hk. unfold dict_get. rewrite coerce_action_lookup.
  by rewrite decide_False.
Qed.

(** The mapping after lines 107-120. *)
Lemma coerce_common_lookup d k :
  coerce_expose (coerce_action (coerce_plan d)) !! k =
  if decide (k = "plan") then Some (plan_of d)
  else if decide (k = "action") then Some (PStr (resolved_action d))
  else if decide (k = "expose_to_user") then Some (expose_of d)
  else d !! k.
Proof.
  rewrite coerce_expose_lookup, coerce_action_lookup, coerce_plan_lookup.
  unfold expose_of, resolved_action.
  rewrite !dict_get_coerce_action, !dict_get_coerce_plan by done.
  repeat case_decide; simplify_eq; done.
Qed.

Lemma dict_get_coerce_common d k :
  k <> "plan" -> k <> "action" -> k <> "expose_to_user" ->
  dict_get (coerce_expose (coerce_action (coerce_plan d))) k = dict_get d k.
Proof.
  intros. unfold dict_get. rewrite coerce_common_lookup.
  by rewrite !decide_False.
Qed.

(** The normalizer returns, for a mapping without an [error] key, the
    mapping that [decision_lookup] describes. *)
Lemma coerce_decision d :
  d !! "error" = None ->
  exists out,
    _coerce_agent_json (PDict d) = Ok (PDict out) /\
    forall k, out !! k = decision_lookup d k.
Proof.
  intros Herr. unfold _coerce_agent_json, dict_has.
  rewrite Herr, bool_decide_false by (by intros [? ?]).
  unfold dict_getitem. rewrite coerce_common_lookup.
  cbn [decide mbind result_bind py_eq_str].
  rewrite decide_False, decide_True by done.
  cbn [mbind result_bind py_eq_str].
  destruct (String.eqb (resolved_action d) "command") eqn:Hact.
  - eexists. split; [done|]. intros k.
    rewrite coerce_command_mode_lookup, coerce_common_lookup.
    rewrite !dict_get_coerce_common by done.
    unfold decision_lookup, command_of, data_of. rewrite Hact.
    repeat case_decide; simplify_eq; done.
  - eexists. split; [done|]. intros k.
    rewrite coerce_answer_mode_lookup, coerce_common_lookup.
    rewrite !dict_get_coerce_common by done.
    unfold decision_lookup, command_of, data_of. rewrite Hact.
    repeat case_decide; simplify_eq; done.
Qed.
End NormalizerFacts.

Lemma plan_of_list (d : gmap string pyval) : exists l, plan_of d = PList l.
Proof.
  unfold plan_of. destruct (dict_get d "plan") eqn:E; simpl; eauto.
Qed.

Lemma expose_of_bool (d : gmap string pyval) : exists b, expose_of d = PBool b.
Proof.
  unfold expose_of. destruct (dict_get d "expose_to_user") eqn:E; simpl; eauto.
Qed.

Lemma resolved_action_cases (d : gmap string pyval) :
  resolved_action d = "answer" \/ resolved_action d = "command".
Proof.
  unfold resolved_action. repeat case_match; auto.
Qed.

Lemma decision_canonical (d out : gmap string pyval) :
  (forall k, out !! k = decision_lookup d k) -> canonical out.
Proof.
  intros Hout. unfold canonical. rewrite !Hout. unfold decision_lookup.
  cbn [decide]. repeat (rewrite decide_False by done).
  repeat (rewrite decide_True by done).
  destruct (plan_of_list d) as [l ->], (expose_of_bool d) as [b ->].
  repeat split; eauto.
  destruct (resolved_action_cases d) as [-> | ->]; auto.
Qed.

Lemma payload_of_ext (d out : gmap string pyval) :
  (forall k, k ∉ schema_keys -> out !! k = d !! k) ->
  payload_of out = payload_of d.
Proof.
  intros Hext. apply map_eq. intros k. unfold payload_of.
  rewrite !map_lookup_filter.
  destruct (decide (k ∈ schema_keys)) as [Hin|Hout].
  - destruct (out !! k), (d !! k); simpl;
      rewrite ?option_guard_False by (simpl; tauto); done.
  - by rewrite Hext.
Qed.

Lemma decision_payload (d out : gmap string pyval) :
  (forall k, out !! k = decision_lookup d k) -> payload_of out = payload_of d.
Proof.
  intros Hout. apply payload_of_ext. intros k Hk. rewrite Hout.
  unfold decision_lookup, schema_keys in *.
  repeat case_decide; subst; try done; exfalso; apply Hk; set_solver.
Qed.

Lemma decision_get (d out : gmap string pyval) (k : string) (v : pyval) :
  (forall k, out !! k = decision_lookup d k) ->
  decision_lookup d k = Some v -> dict_get out k = v.
Proof. intros Hout Hk. apply dict_get_lookup. by rewrite Hout. Qed.

(** Normalizing a normalized decision looks up the same values. *)
Lemma decision_lookup_stable (d out : gmap string pyval) :
  (forall k, out !! k = decision_lookup d k) ->
  forall k, decision_lookup out k = decision_lookup d k.
Proof.
  intros Hout.
  assert (dict_get out "plan" = plan_of d) as Hplan
    by (by apply (decision_get d)).
  assert (dict_get out "action" = PStr (resolved_action d)) as Hact
    by (by apply (decision_get d)).
  assert (dict_get out "expose_to_user" = expose_of d) as Hexp
    by (by apply (decision_get d)).
  assert (dict_get out "command" = command_of d) as Hcmd
    by (by apply (decision_get d)).
  assert (dict_get out "data" = data_of d) as Hdata
    by (by apply (decision_get d)).
  assert (plan_of out = plan_of d) as Eplan.
  { unfold plan_of at 1. rewrite Hplan.
    by destruct (plan_of_list d) as [l ->]. }
  assert (resolved_action out = resolved_action d) as Eact.
  { unfold resolved_action at 1. rewrite Hact.
    by destruct (resolved_action_cases d) as [-> | ->]. }
  assert (expose_of out = expose_of d) as Eexp.
  { unfold expose_of at 1. rewrite Hexp.
    by destruct (expose_of_bool d) as [b ->]. }
  assert (command_of out = command_of d) as Ecmd.
  { unfold command_of at 1. rewrite Eact, Hcmd. unfold command_of.
    destruct (String.eqb (resolved_action d) "command"); [|done].
    by destruct (is_str (dict_get d "command")) eqn:E; rewrite ?E. }
  assert (data_of out = data_of d) as Edata.
  { unfold data_of at 1. rewrite Eact, Hdata, (decision_payload d out Hout).
    unfold data_of.
    destruct (String.eqb (resolved_action d) "command"); [done|].
    destruct (is_none (dict_get d "data")) eqn:E; rewrite ?E; [|done].
    by destruct (py_truthy (PDict (payload_of d))) eqn:E'; simpl; rewrite ?E'. }
  intros k. unfold decision_lookup at 1.
  rewrite Eplan, Eact, Eexp, Ecmd, Edata, Hout.
  unfold decision_lookup. repeat case_decide; done.
Qed.

(** C1, refuted as stated: a mapping with [action] "answer" that carries a
    command keeps it, so [command] is not null in the normalized
    decision. *)
Lemma answer_keeps_dir :
  answer_with_command !! "error" = None /\
  exists out,
    _coerce_agent_json (PDict answer_with_command) = Ok (PDict out) /\
    out !! "action" = Some (PStr "answer") /\
    out !! "command" = Some (PStr "dir") /\
    out !! "command" <> Some PNone.
Proof.
  split; [reflexivity|]. eexists. split; [vm_compute; reflexivity|].
  repeat split; try (vm_compute; reflexivity). discriminate.
Qed.

(** C1, amended: for a mapping without an [error] key whose normalized
    action is "answer", the normalized decision has a [command] key; it
    holds the command of the source mapping unchanged, and null when the
    source has none. *)
Theorem answer_command_kept (d out : gmap string pyval) :
  d !! "error" = None ->
  _coerce_agent_json (PDict d) = Ok (PDict out) ->
  out !! "action" = Some (PStr "answer") ->
  out !! "command" = Some (default PNone (d !! "command")).
Proof.
  intros Herr Hrun Hact.
  destruct (coerce_decision d Herr) as (out' & Hrun' & Hout).
  rewrite Hrun in Hrun'. injection Hrun' as <-.
  rewrite Hout in Hact. rewrite Hout. unfold decision_lookup in *.
  repeat (rewrite decide_False in * by done).
  repeat (rewrite decide_True in * by done).
  injection Hact as Hact. unfold command_of. by rewrite Hact.
Qed.

Lemma answer_command_kept_witness :
  exists out,
    _coerce_agent_json (PDict answer_with_command) = Ok (PDict out) /\
    out !! "command" = Some (PStr "dir").
Proof.
  eexists. split; [vm_compute; reflexivity|].
  apply (answer_command_kept answer_with_command);
    vm_compute; reflexivity.
Defined.

(** C6: the normalizer never raises.  An input that is not a mapping
    yields the [invalid_json_type] error with the observed type as detail;
    a mapping with an [error] key is returned unchanged; every other
    mapping yields a canonical decision. *)
Theorem coerce_agent_json_total :
  (forall x, exists d, _coerce_agent_json x = Ok (PDict d)) /\
  (forall x, is_dict x = false ->
     _coerce_agent_json x =
     Ok (PDict (<["error" := PStr "invalid_json_type"]>
                (<["detail" := PStr (type_str x)]> ∅)))) /\
  (forall d, is_Some (d !! "error") ->
     _coerce_agent_json (PDict d) = Ok (PDict d)) /\
  (forall d, d !! "error" = None ->
     exists out, _coerce_agent_json (PDict d) = Ok (PDict out) /\ canonical out).
Proof.
  assert (forall d, is_Some (d !! "error") ->
            _coerce_agent_json (PDict d) = Ok (PDict d)) as Hpass.
  { intros d Herr. unfold _coerce_agent_json, dict_has.
    by rewrite bool_decide_true. }
  assert (forall d, d !! "error" = None ->
            exists out, _coerce_agent_json (PDict d) = Ok (PDict out) /\
                        canonical out) as Hcanon.
  { intros d Herr. destruct (coerce_decision d Herr) as (out & Hrun & Hout).
    exists out. split; [done|]. by apply (decision_canonical d). }
  repeat split; try done.
  - intros x. destruct x; try (eexists; reflexivity).
    destruct (d !! "error") eqn:Herr.
    + exists d. apply Hpass. by eexists.
    + destruct (Hcanon d Herr) as (out & Hrun & _). by exists out.
  - intros x Hx. by destruct x.
Qed.

Lemma coerce_agent_json_total_witness :
  _coerce_agent_json (PList []) =
    Ok (PDict (<["error" := PStr "invalid_json_type"]>
               (<["detail" := PStr "<class 'list'>"]> ∅))) /\
  _coerce_agent_json (PDict (<["error" := PStr "unknown"]> ∅)) =
    Ok (PDict (<["error" := PStr "unknown"]> ∅)) /\
  exists out, _coerce_agent_json (PDict ∅) = Ok (PDict out) /\ canonical out.
Proof.
  destruct coerce_agent_json_total as (_ & Htype & Hpass & Hcanon).
  split; [|split].
  - apply (Htype (PList [])). reflexivity.
  - apply (Hpass (<["error" := PStr "unknown"]> ∅)).
    exists (PStr "unknown"). reflexivity.
  - apply (Hcanon ∅). reflexivity.
Defined.

(** C7: the normalizer is idempotent: normalizing its own output gives
    the same result as normalizing once. *)
Theorem coerce_agent_json_idempotent (x : pyval) :
  _coerce_agent_json x ≫= _coerce_agent_json = _coerce_agent_json x.
Proof.
  destruct x; try reflexivity.
  destruct (d !! "error") eqn:Herr.
  - assert (_coerce_agent_json (PDict d) = Ok (PDict d)) as Hpass.
    { unfold _coerce_agent_json, dict_has.
      rewrite bool_decide_true; [done | by eexists]. }
    rewrite Hpass. exact Hpass.
  - destruct (coerce_decision d Herr) as (out & Hrun & Hout).
    rewrite Hrun. cbn [mbind result_bind].
    assert (out !! "error" = None) as Herr'.
    { rewrite Hout. unfold decision_lookup.
      by repeat (rewrite decide_False by done). }
    destruct (coerce_decision out Herr') as (out' & Hrun' & Hout').
    rewrite Hrun'. do 2 f_equal. apply map_eq. intros k.
    by rewrite Hout', Hout, (decision_lookup_stable d out Hout).
Qed.

(** Inference, on a mapping whose [action] is not one of the two names. *)
Lemma resolved_action_inferred (d : gmap string pyval) :
  d !! "action" <> Some (PStr "answer") ->
  d !! "action" <> Some (PStr "command") ->
  (command_given d -> resolved_action d = "command") /\
  (~ command_given d -> resolved_action d = "answer").
Proof.
  intros Hans Hcmd.
  assert (resolved_action d =
          if nonblank_str (dict_get d "command") then "command" else "answer")
    as ->.
  { unfold resolved_action, dict_get, py_eq_str.
    destruct (d !! "action") as [[]|]; simpl; try done.
    destruct (String.eqb_spec s "answer") as [->|_]; [done|].
    by destruct (String.eqb_spec s "command") as [->|_]. }
  assert (nonblank_str (dict_get d "command") = true <-> command_given d)
    as Hnb.
  { rewrite nonblank_str_spec. unfold command_given, dict_get.
    destruct (d !! "command") as [v|]; simpl.
    - split; intros (s & Hs & Hb); exists s; split; congruence.
    - split; intros (s & Hs & Hb); discriminate. }
  destruct (nonblank_str (dict_get d "command")).
  - split; [done|]. intros Hno. destruct Hno. by apply Hnb.
  - split; [|done]. intros Hyes. apply Hnb in Hyes. discriminate.
Qed.

(** C8: when [action] is absent, of a wrong type, or neither "answer" nor
    "command", the normalized action is "command" exactly when [command]
    is a string that is not blank, and "answer" otherwise: so does the
    inference step on every mapping, and so does the normalizer on every
    mapping it normalizes.  In particular [{"command": "dir"}] normalizes
    to "command" and [{}] to "answer". *)
Theorem action_inference :
  (forall d,
     d !! "action" <> Some (PStr "answer") ->
     d !! "action" <> Some (PStr "command") ->
     (command_given d ->
      coerce_action d !! "action" = Some (PStr "command")) /\
     (~ command_given d ->
      coerce_action d !! "action" = Some (PStr "answer"))) /\
  (forall d,
     d !! "error" = None ->
     d !! "action" <> Some (PStr "answer") ->
     d !! "action" <> Some (PStr "command") ->
     exists out,
       _coerce_agent_json (PDict d) = Ok (PDict out) /\
       (command_given d -> out !! "action" = Some (PStr "command")) /\
       (~ command_given d -> out !! "action" = Some (PStr "answer"))) /\
  (exists out,
     _coerce_agent_json (PDict dir_request) = Ok (PDict out) /\
     out !! "action" = Some (PStr "command")) /\
  (exists out,
     _coerce_agent_json (PDict ∅) = Ok (PDict out) /\
     out !! "action" = Some (PStr "answer")).
Proof.
  split; [|split;
    [|split; eexists; (split; [vm_compute; reflexivity|]); reflexivity]].
  - intros d Hans Hcmd. rewrite coerce_action_lookup, decide_True by done.
    destruct (resolved_action_inferred d Hans Hcmd) as [Hyes Hno].
    split; intros H; f_equal; f_equal; auto.
  - intros d Herr Hans Hcmd.
    destruct (coerce_decision d Herr) as (out & Hrun & Hout).
    exists out. split; [done|]. rewrite Hout. unfold decision_lookup.
    rewrite decide_False, decide_True by done.
    destruct (resolved_action_inferred d Hans Hcmd) as [Hyes Hno].
    split; intros H; f_equal; f_equal; auto.
Qed.

Lemma action_inference_witness :
  coerce_action run_request !! "action" = Some (PStr "command") /\
  exists out,
    _coerce_agent_json (PDict run_request) = Ok (PDict out) /\
    out !! "action" = Some (PStr "command").
Proof.
  assert (command_given run_request) as Hgiven.
  { exists " ls ". split; [reflexivity|].
    simpl. intros (_ & Hl & _). vm_compute in Hl. discriminate. }
  destruct action_inference as (Hstep & Hfun & _).
  split.
  - apply (Hstep run_request); [vm_compute; discriminate.. | exact Hgiven].
  - destruct (Hfun run_request) as (out & Hrun & Hyes & _).
    + reflexivity.
    + vm_compute. discriminate.
    + vm_compute. discriminate.
    + exists out. split; [exact Hrun | exact (Hyes Hgiven)].
Defined.

(** ** CommandRunner *)

Lemma blank_app (l r : string) : blank (l +:+ r) -> blank l /\ blank r.
Proof.
  induction l as [|c l IH]; simpl; [done|].
  intros [Hc Hlr]. destruct (IH Hlr). done.
Qed.

Lemma blank_no_banned (s : string) :
  blank s -> existsb (fun b => str_contains b s) banned = false.
Proof.
  intros Hs. apply not_true_iff_false. intros Hex.
  apply existsb_exists in Hex as (b & Hb & Hsub).
  apply str_contains_spec in Hsub as (l & r & ->).
  apply blank_app in Hs as [_ Hs]. apply blank_app in Hs as [Hs _].
  apply list_elem_of_In in Hb. unfold banned in Hb.
  rewrite !elem_of_cons, elem_of_nil in Hb.
  decompose [or] Hb; subst; simpl in Hs; try done;
    destruct Hs as [Hs _]; vm_compute in Hs; discriminate.
Qed.

Section RunnerFacts.
Context {LLM OS : Type}.
Variable subprocess_run : string -> OS -> result completed_process * OS.

(** On a string or on [None] the runner returns a result and does not
    raise. *)
Lemma execute_command_returns (command : pyval) (w : world LLM OS) :
  is_str command = true \/ command = PNone ->
  exists r w', execute_command subprocess_run command w = (Ok r, w').
Proof.
  intros [Hs | ->]; [|by eexists _, _].
  destruct command as [| | | |s| |]; try discriminate.
  unfold execute_command. rewrite is_safe_command_str.
  destruct (_ && _); [|by eexists _, _].
  destruct (negb _); [by eexists _, _|].
  destruct (run_process _ _ _) as [[cp|e] w']; by eexists _, _.
Qed.

(** What remains of the blank-command rule: a blank string of 1 to 200
    characters passes the gate and is then rejected as missing, and no
    process is launched. *)
Lemma execute_command_blank (s : string) (w : world LLM OS) :
  blank s -> s <> EmptyString -> String.length s <= 200 ->
  execute_command subprocess_run (PStr s) w
  = (Ok (rejected "missing command"), w).
Proof.
  intros Hb Hne Hlen. unfold execute_command.
  rewrite is_safe_command_str, (blank_no_banned s Hb).
  apply String.eqb_neq in Hne. rewrite Hne.
  apply Nat.ltb_ge in Hlen. rewrite Hlen. cbn [negb andb].
  apply strip_empty in Hb. by rewrite Hb.
Qed.

(** C2, at the failing inputs: the empty string and [None] are stopped
    by the safety gate first, so the reason given is "unsafe command",
    not "missing command". *)
Theorem execute_command_empty (w : world LLM OS) :
  execute_command subprocess_run (PStr EmptyString) w
    = (Ok (rejected "unsafe command"), w) /\
  execute_command subprocess_run PNone w
    = (Ok (rejected "unsafe command"), w) /\
  rejected "unsafe command" <> rejected "missing command".
Proof.
  repeat split. intros H. apply (f_equal
    (fun v => match v with PDict d => d !! "reason" | _ => None end)) in H.
  vm_compute in H. discriminate.
Qed.
End RunnerFacts.

(** The two outcomes of a launch: a completed process is reported as
    executed, a failed launch as an error, and the command line is logged
    either way. *)
Example execute_command_dir :
  execute_command echo_run (PStr "dir") (world0 []) =
    (Ok (executed {| returncode := 0; stdout := "dir"; stderr := EmptyString |}),
     {| llm := []; os := tt; asked := []; launched := ["dir"] |}) /\
  execute_command broken_run (PStr "dir") (world0 []) =
    (Ok (failed (OSError "[Errno 8] Exec format error")),
     {| llm := []; os := tt; asked := []; launched := ["dir"] |}).
Proof. split; reflexivity. Qed.

(** ** DecisionController: the envelope *)

Section EnvelopeFacts.
Context {LLM OS : Type}.
Variable subprocess_run : string -> OS -> result completed_process * OS.

(** A normalized decision without an [error] key comes from a mapping
    without an [error] key. *)
Lemma coerce_no_error_inv (agent_json : pyval) (d : gmap string pyval) :
  _coerce_agent_json agent_json = Ok (PDict d) ->
  d !! "error" = None ->
  exists d0, agent_json = PDict d0 /\ d0 !! "error" = None /\
             forall k, d !! k = decision_lookup d0 k.
Proof.
  intros Hrun Herr.
  destruct agent_json as [| | | | | |d0];
    try (injection Hrun as <-; vm_compute in Herr; discriminate).
  destruct (d0 !! "error") eqn:Herr0.
  - unfold _coerce_agent_json, dict_has in Hrun.
    rewrite bool_decide_true in Hrun by (by eexists).
    injection Hrun as <-. congruence.
  - destruct (coerce_decision d0 Herr0) as (out & Hrun' & Hout).
    rewrite Hrun in Hrun'. injection Hrun' as <-. by exists d0.
Qed.

(** C10: for a normalized decision without an [error] key, the envelope
    has a [plan] key holding a list and a boolean [expose_to_user]; it has
    the [execution] key exactly when the action is "command" and the
    [data] key exactly when the action is "answer", and never both. *)
Theorem envelope_shape (agent_json : pyval) (d : gmap string pyval)
    (w : world LLM OS) :
  _coerce_agent_json agent_json = Ok (PDict d) ->
  d !! "error" = None ->
  exists env w',
    process_agent_output subprocess_run agent_json w = (Ok (PDict env), w') /\
    (exists l, env !! "plan" = Some (PList l)) /\
    (exists b, env !! "expose_to_user" = Some (PBool b)) /\
    (is_Some (env !! "execution") <-> d !! "action" = Some (PStr "command")) /\
    (is_Some (env !! "data") <-> d !! "action" = Some (PStr "answer")) /\
    ~ (is_Some (env !! "execution") /\ is_Some (env !! "data")).
Proof.
  intros Hrun Herr.
  destruct (coerce_no_error_inv _ _ Hrun Herr) as (d0 & -> & Herr0 & Hd).
  assert (d !! "plan" = Some (plan_of d0)) as Hplan by (by rewrite Hd).
  assert (d !! "expose_to_user" = Some (expose_of d0)) as Hexp by (by rewrite Hd).
  assert (d !! "action" = Some (PStr (resolved_action d0))) as Hact
    by (by rewrite Hd).
  assert (d !! "command" = Some (command_of d0)) as Hcmd by (by rewrite Hd).
  assert (d !! "data" = Some (data_of d0)) as Hdata by (by rewrite Hd).
  unfold process_agent_output, mbind, M_bind, lift, mret, M_ret.
  rewrite Hrun. cbn [py_contains py_get py_getitem].
  rewrite bool_decide_false by (rewrite Herr; by intros [? ?]).
  unfold dict_get_or, dict_getitem. rewrite Hact, Hexp, Hplan, Hcmd, Hdata.
  cbn [default from_option id py_eq_str].
  destruct (plan_of_list d0) as [l ->], (expose_of_bool d0) as [b ->].
  destruct (resolved_action_cases d0) as [Ha | Ha]; rewrite Ha;
    cbn [String.eqb Ascii.eqb Bool.eqb andb].
  - eexists _, _. split; [reflexivity|].
    cbn [id]. repeat split; intros; simplify_map_eq; eauto; try done.
    by intros [[? ?] [? ?]].
  - assert (is_str (command_of d0) = true \/ command_of d0 = PNone) as Hc.
    { unfold command_of. rewrite Ha. cbn.
      destruct (is_str (dict_get d0 "command")) eqn:E; auto. }
    destruct (execute_command_returns subprocess_run _ w Hc) as (r & w' & ->).
    eexists _, _. split; [reflexivity|].
    cbn [id]. repeat split; intros; simplify_map_eq; eauto; try done.
    by intros [[? ?] [? ?]].
Qed.

End EnvelopeFacts.

Lemma envelope_shape_witness :
  exists env w',
    process_agent_output echo_run (PDict dir_request) (world0 [])
      = (Ok (PDict env), w') /\
    is_Some (env !! "execution") /\ ~ is_Some (env !! "data").
Proof.
  destruct (envelope_shape echo_run (PDict dir_request) dir_decision (world0 []))
    as (env & w' & Hrun & _ & _ & Hexec & _ & Hnot).
  - vm_compute. reflexivity.
  - vm_compute. reflexivity.
  - exists env, w'. split; [exact Hrun|].
    assert (is_Some (env !! "execution")) as He.
    { apply Hexec. vm_compute. reflexivity. }
    split; [exact He | tauto].
Defined.

(** ** DecisionController: the retry loop *)

Section RetryFacts.
Context {LLM OS : Type}.
Variable json_loads : string -> result pyval.
Variable create_chat_completion : string -> string -> LLM -> string * LLM.

(** Every attempt either succeeds or fails, and not both. *)
Lemma attempt_dichotomy (raw : string) :
  (exists v, succeeds json_loads raw v) \/ (exists r, fails json_loads raw r).
Proof.
  unfold succeeds, fails. destruct (json_loads raw) as [v|e] eqn:Hraw.
  - left. exists v. by left.
  - destruct (extract_json_from_text json_loads raw) as [| | | | | |] eqn:Hx.
    1: right; exists (exn_str e), e; done.
    all: left; eexists; right; exists e;
      (split; [reflexivity|]); split; [reflexivity | discriminate].
Qed.

Lemma fails_not_succeeds (raw reason : string) (v : pyval) :
  fails json_loads raw reason -> succeeds json_loads raw v -> False.
Proof.
  intros (e & Hraw & Hx & _) [Hok | (e' & _ & Hx' & Hv)]; congruence.
Qed.

(** One round of the loop on an attempt that succeeds. *)
Lemma loop_round_success (n : nat) (prompt : string) (last : pyval)
    (w w1 : world LLM OS) (raw : string) (v : pyval) :
  generate create_chat_completion prompt w = (raw, w1) ->
  succeeds json_loads raw v ->
  ask_model_loop json_loads create_chat_completion (S n) prompt last w = (v, w1).
Proof.
  intros Hgen Hok. cbn [ask_model_loop]. rewrite Hgen.
  destruct Hok as [-> | (e & -> & <- & Hv)]; [done|].
  by destruct (extract_json_from_text json_loads raw).
Qed.

(** One round of the loop on an attempt that fails. *)
Lemma loop_round_failure (n : nat) (prompt : string) (last : pyval)
    (w w1 : world LLM OS) (raw reason : string) :
  generate create_chat_completion prompt w = (raw, w1) ->
  fails json_loads raw reason ->
  ask_model_loop json_loads create_chat_completion (S n) prompt last w =
  ask_model_loop json_loads create_chat_completion n prompt (PStr reason) w1.
Proof.
  intros Hgen (e & Hraw & Hx & ->). cbn [ask_model_loop].
  by rewrite Hgen, Hraw, Hx.
Qed.

Lemma asked_after_calls (n : nat) (prompt : string) (w : world LLM OS) :
  asked (after_calls create_chat_completion n prompt w) =
  asked w ++ replicate n (SYSTEM_PROMPT, prompt).
Proof.
  revert w. induction n as [|n IH]; intros w; cbn [after_calls replicate].
  - by rewrite app_nil_r.
  - destruct (generate create_chat_completion prompt w) as [raw w1] eqn:Hgen.
    rewrite IH. unfold generate in Hgen.
    destruct (create_chat_completion _ _ _) as [raw' l].
    injection Hgen as _ <-. cbn [asked]. by rewrite <- app_assoc.
Qed.

(** The loop returns the value of the first attempt that succeeds, after
    exactly that many generator calls. *)
Lemma loop_first_success (n : nat) (prompt : string) :
  forall (last : pyval) (w : world LLM OS) (k : nat) (raw : string) (v : pyval),
    replies create_chat_completion n prompt w !! k = Some raw ->
    succeeds json_loads raw v ->
    (forall j raw', j < k ->
       replies create_chat_completion n prompt w !! j = Some raw' ->
       exists r, fails json_loads raw' r) ->
    ask_model_loop json_loads create_chat_completion n prompt last w =
    (v, after_calls create_chat_completion (S k) prompt w).
Proof.
  induction n as [|n IH]; intros last w k raw v Hk Hok Hbefore; [done|].
  cbn [replies after_calls] in *.
  destruct (generate create_chat_completion prompt w) as [raw0 w1] eqn:Hgen.
  destruct k as [|k].
  - injection Hk as Heq. subst raw0.
    by apply (loop_round_success n prompt last w w1 raw v).
  - destruct (Hbefore 0 raw0) as [r Hr]; [lia | done |].
    rewrite (loop_round_failure n prompt last w w1 raw0 r Hgen Hr).
    apply (IH _ _ k raw v); [done | done |].
    intros j raw' Hj Hraw'. apply (Hbefore (S j) raw'); [lia | done].
Qed.

(** When every attempt fails, the loop runs all its rounds and returns the
    [invalid_json] error with the last failure reason. *)
Lemma loop_all_fail (n : nat) (prompt : string) :
  forall (last : pyval) (w : world LLM OS),
    (forall raw, raw ∈ replies create_chat_completion n prompt w ->
       exists r, fails json_loads raw r) ->
    ask_model_loop json_loads create_chat_completion n prompt last w =
    (invalid_json
       (last_error_after json_loads last
          (replies create_chat_completion n prompt w)),
     after_calls create_chat_completion n prompt w).
Proof.
  induction n as [|n IH]; intros last w Hall; [done|].
  cbn [replies after_calls] in *.
  destruct (generate create_chat_completion prompt w) as [raw0 w1] eqn:Hgen.
  destruct (Hall raw0) as [r Hr]; [by left|].
  rewrite (loop_round_failure n prompt last w w1 raw0 r Hgen Hr).
  rewrite IH by (intros raw Hraw; apply Hall; by right).
  unfold last_error_after. cbn [fold_left].
  by destruct Hr as (e & -> & _ & ->).
Qed.

(** The loop makes at most [n] generator calls. *)
Lemma loop_calls (n : nat) (prompt : string) :
  forall (last : pyval) (w : world LLM OS),
    exists k, k <= n /\
      (ask_model_loop json_loads create_chat_completion n prompt last w).2 =
      after_calls create_chat_completion k prompt w.
Proof.
  induction n as [|n IH]; intros last w.
  - by exists 0.
  - cbn [ask_model_loop after_calls].
    destruct (generate create_chat_completion prompt w) as [raw0 w1] eqn:Hgen.
    destruct (json_loads raw0) as [v|e].
    { exists 1. split; [lia|]. cbn [after_calls]. by rewrite Hgen. }
    destruct (negb _).
    { exists 1. split; [lia|]. cbn [after_calls]. by rewrite Hgen. }
    destruct (IH (PStr (exn_str e)) w1) as (k & Hk & Hw).
    exists (S k). split; [lia|]. cbn [after_calls]. by rewrite Hgen.
Qed.

(** C5: the retry loop issues at most 3 generator attempts; it returns the
    value of the first attempt whose raw text parses directly or yields a
    value through the extractor; and if all 3 attempts fail it returns the
    [invalid_json] error whose detail is the failure reason of the last
    attempt. *)
Theorem ask_model_retries (prompt : string) (w w' : world LLM OS) (out : pyval) :
  ask_model json_loads create_chat_completion prompt max_retries_default w
    = (out, w') ->
  (exists k, k <= 3 /\
     asked w' = asked w ++ replicate k (SYSTEM_PROMPT, prompt)) /\
  (forall k raw v,
     replies create_chat_completion 3 prompt w !! k = Some raw ->
     succeeds json_loads raw v ->
     (forall j raw', j < k ->
        replies create_chat_completion 3 prompt w !! j = Some raw' ->
        ~ exists v', succeeds json_loads raw' v') ->
     out = v /\
     asked w' = asked w ++ replicate (S k) (SYSTEM_PROMPT, prompt)) /\
  (forall raw reason,
     (forall raw', raw' ∈ replies create_chat_completion 3 prompt w ->
        ~ exists v, succeeds json_loads raw' v) ->
     replies create_chat_completion 3 prompt w !! 2 = Some raw ->
     fails json_loads raw reason ->
     out = invalid_json (PStr reason) /\
     asked w' = asked w ++ replicate 3 (SYSTEM_PROMPT, prompt)).
Proof.
  unfold ask_model, max_retries_default.
  change (Z.to_nat 3) with 3. intros Hrun.
  assert (forall raw, ~ (exists v, succeeds json_loads raw v) ->
            exists r, fails json_loads raw r) as Hfail.
  { intros raw Hno. by destruct (attempt_dichotomy raw). }
  split; [|split].
  - destruct (loop_calls 3 prompt PNone w) as (k & Hk & Hw).
    rewrite Hrun in Hw. cbn [snd] in Hw. subst w'.
    exists k. split; [done|]. apply asked_after_calls.
  - intros k raw v Hk Hok Hbefore.
    rewrite (loop_first_success 3 prompt PNone w k raw v) in Hrun;
      [|done|done|by eauto].
    injection Hrun as <- <-. split; [done|].
    apply (asked_after_calls (S k) prompt w).
  - intros raw reason Hall Hlast Hreason.
    rewrite (loop_all_fail 3 prompt PNone w) in Hrun by eauto.
    injection Hrun as <- <-.
    split; [|apply (asked_after_calls 3 prompt w)].
    f_equal. cbn [replies] in *.
    destruct (generate create_chat_completion prompt w) as [r0 w1].
    destruct (generate create_chat_completion prompt w1) as [r1 w2].
    destruct (generate create_chat_completion prompt w2) as [r2 w3].
    injection Hlast as ->. unfold last_error_after. cbn [fold_left].
    by destruct Hreason as (e & -> & _ & ->).
Qed.

End RetryFacts.

Lemma ask_model_retries_witness :
  (exists w',
     ask_model (json_loads_table table_x1) canned "hi" max_retries_default
       (world0 noisy_replies) = (val_x1, w') /\
     length (asked w') = 2) /\
  (exists w',
     ask_model (json_loads_table table_x1) canned "hi" max_retries_default
       (world0 garbage_replies)
     = (invalid_json (PStr "Expecting value: line 1 column 1 (char 0)"), w') /\
     length (asked w') = 3).
Proof.
  split.
  - destruct (ask_model (json_loads_table table_x1) canned "hi"
                max_retries_default (world0 noisy_replies)) as [out w'] eqn:Hrun.
    destruct (ask_model_retries _ _ _ _ _ _ Hrun) as (_ & Hfirst & _).
    destruct (Hfirst 1 ("Here: {" +:+ doc_x1 +:+ " ok") val_x1) as [-> Hlog].
    + vm_compute. reflexivity.
    + right. eexists. split; [vm_compute; reflexivity|].
      split; [vm_compute; reflexivity | discriminate].
    + intros j raw' Hj Hraw'. assert (j = 0) as -> by lia.
      vm_compute in Hraw'. injection Hraw' as <-.
      intros [v' [Hv | (e & _ & Hx & Hv)]].
      * vm_compute in Hv. discriminate.
      * vm_compute in Hx. congruence.
    + exists w'. split; [reflexivity|]. rewrite Hlog. reflexivity.
  - destruct (ask_model (json_loads_table table_x1) canned "hi"
                max_retries_default (world0 garbage_replies)) as [out w'] eqn:Hrun.
    destruct (ask_model_retries _ _ _ _ _ _ Hrun) as (_ & _ & Hlast).
    destruct (Hlast "c" "Expecting value: line 1 column 1 (char 0)")
      as [-> Hlog].
    + assert (replies canned 3 "hi" (world0 garbage_replies) = garbage_replies)
        as -> by (vm_compute; reflexivity).
      unfold garbage_replies.
      intros raw' Hraw' [v' [Hv | (e & _ & Hx & Hv)]];
        rewrite !elem_of_cons, elem_of_nil in Hraw';
        decompose [or] Hraw'; subst; try done.
      all: try (vm_compute in Hv; discriminate).
      all: vm_compute in Hx; congruence.
    + vm_compute. reflexivity.
    + eexists. split; [vm_compute; reflexivity|].
      split; vm_compute; reflexivity.
    + exists w'. split; [reflexivity|]. rewrite Hlog. reflexivity.
Defined.

(** ** StructuredValueExtractor *)

Lemma chars_app (s t : string) :
  list_ascii_of_string (s +:+ t) =
  list_ascii_of_string s ++ list_ascii_of_string t.
Proof.
  induction s as [|c s IH]; [done|].
  change (String c s +:+ t) with (String c (s +:+ t)).
  cbn [list_ascii_of_string]. by rewrite IH.
Qed.

Lemma string_of_chars_app (l r : list ascii) :
  string_of_list_ascii (l ++ r) =
  string_of_list_ascii l +:+ string_of_list_ascii r.
Proof.
  induction l as [|c l IH]; [done|].
  cbn [app string_of_list_ascii]. rewrite IH. reflexivity.
Qed.

Lemma chars_length (s : string) :
  length (list_ascii_of_string s) = String.length s.
Proof. induction s as [|c s IH]; [done|]. cbn. by rewrite IH. Qed.

Lemma walk_cons (stack : list ascii) (c : ascii) (cs : list ascii) :
  walk stack (c :: cs) = walk (walk_step stack c) cs.
Proof. reflexivity. Qed.

(** One round of the inner loop, on a stack that is not empty. *)
Lemma close_len_cons (c : ascii) (rest stack : list ascii) :
  stack <> [] ->
  close_len (c :: rest) stack =
  match walk_step stack c with
  | [] => Some 1
  | st => S <$> close_len rest st
  end.
Proof.
  intros Hne. unfold walk_step. cbn [close_len].
  destruct (is_open c); [done|].
  destruct stack as [|top stack']; [done|].
  destruct (Ascii.eqb c top); [|done]. by destruct stack'.
Qed.

(** The loop finds the first prefix of [rest] at whose end the stack is
    empty. *)
Lemma close_len_iff (rest : list ascii) :
  forall (stack : list ascii) (n : nat),
    stack <> [] ->
    close_len rest stack = Some n <->
    n <= length rest /\
    walk stack (take n rest) = [] /\
    forall m, m < n -> walk stack (take m rest) <> [].
Proof.
  induction rest as [|c rest IH]; intros stack n Hne.
  - split; [done|]. intros (Hn & Hw & _).
    rewrite take_nil in Hw. done.
  - rewrite close_len_cons by done. destruct n as [|n].
    { split.
      - destruct (walk_step stack c); [done|].
        destruct (close_len rest _); done.
      - intros (_ & Hw & _). done. }
    cbn [take length]. rewrite walk_cons.
    destruct (walk_step stack c) as [|t st] eqn:Hstep.
    + split.
      * intros [= <-]. split; [lia|]. split; [done|].
        intros m Hm. assert (m = 0) as -> by lia. done.
      * intros (_ & _ & Hfirst). destruct n as [|n]; [done|].
        destruct (Hfirst 1); [lia|]. cbn [take]. by rewrite walk_cons, Hstep.
    + assert (close_len rest (t :: st) = Some n <->
              S <$> close_len rest (t :: st) = Some (S n)) as <-.
      { destruct (close_len rest (t :: st)); simpl; split; congruence. }
      rewrite IH by done. split.
      * intros (Hn & Hw & Hfirst). split; [lia|]. split; [done|].
        intros [|m] Hm; [done|]. cbn [take]. rewrite walk_cons, Hstep.
        apply Hfirst. lia.
      * intros (Hn & Hw & Hfirst). split; [lia|]. split; [done|].
        intros m Hm. specialize (Hfirst (S m)). cbn [take] in Hfirst.
        rewrite walk_cons, Hstep in Hfirst. apply Hfirst. lia.
Qed.

(** Entering the loop at an opening bracket. *)
Lemma close_len_open (c : ascii) (rest : list ascii) :
  is_open c = true ->
  close_len (c :: rest) [] = S <$> close_len rest [pairs c].
Proof. intros Hc. cbn [close_len]. by rewrite Hc. Qed.

(** A span is a balanced candidate exactly when the loop, entered at its
    first character, stops at its last one. *)
Lemma balanced_chars_close_len (span post : list ascii) :
  balanced_chars span <->
  (exists c span', span = c :: span' /\ is_open c = true) /\
  close_len (span ++ post) [] = Some (length span).
Proof.
  unfold balanced_chars. split.
  - intros (Hopen & Hend & Hfirst). split; [done|].
    destruct Hopen as (c & span' & -> & Hc).
    cbn [app length]. rewrite close_len_open by done.
    assert (close_len (span' ++ post) [pairs c] = Some (length span'))
      as ->; [|done].
    apply close_len_iff; [done|]. rewrite length_app. split; [lia|].
    rewrite take_app_length. split.
    + rewrite walk_cons in Hend. unfold walk_step in Hend.
      by rewrite Hc in Hend.
    + intros m Hm. rewrite take_app_le by lia.
      specialize (Hfirst (c :: take m span') (drop m span')).
      rewrite walk_cons in Hfirst. unfold walk_step in Hfirst.
      rewrite Hc in Hfirst. apply Hfirst; [|done|].
      * cbn [app]. by rewrite take_drop.
      * intros Hnil. apply (f_equal length) in Hnil.
        rewrite length_drop in Hnil. cbn in Hnil. lia.
  - intros [(c & span' & -> & Hc) Hlen]. split; [by eexists _, _|].
    cbn [app length] in Hlen. rewrite close_len_open in Hlen by done.
    assert (close_len (span' ++ post) [pairs c] = Some (length span'))
      as Hlen'.
    { destruct (close_len (span' ++ post) [pairs c]); simpl in Hlen;
        congruence. }
    apply close_len_iff in Hlen' as (_ & Hend & Hfirst); [|done].
    rewrite take_app_length in Hend. split.
    + rewrite walk_cons. unfold walk_step. by rewrite Hc.
    + intros p q Hpq Hp Hq. destruct p as [|c' p]; [done|].
      injection Hpq as <- ->. rewrite walk_cons. unfold walk_step.
      rewrite Hc. specialize (Hfirst (length p)).
      rewrite take_app_le, take_app_length in Hfirst
        by (rewrite length_app; lia).
      apply Hfirst. rewrite length_app.
      destruct q; [done|]. cbn [length]. lia.
Qed.

Lemma starts_from_spec (cs : list ascii) :
  forall i a,
    a ∈ starts_from i cs <->
    exists c, i <= a /\ cs !! (a - i) = Some c /\ is_open c = true.
Proof.
  induction cs as [|c cs IH]; intros i a; cbn [starts_from].
  - rewrite elem_of_nil. split; [done | by intros (? & _ & ? & _)].
  - assert (a ∈ starts_from (S i) cs <->
            exists c', S i <= a /\ (c :: cs) !! (a - i) = Some c' /\
                       is_open c' = true) as Htail.
    { rewrite IH. split; intros (c' & Hle & Hc' & Hopen); exists c'.
      - replace (a - i) with (S (a - S i)) by lia. done.
      - replace (a - i) with (S (a - S i)) in Hc' by lia. done. }
    destruct (is_open c) eqn:Hc.
    + rewrite elem_of_cons, Htail. split.
      * intros [-> | (c' & Hle & Hc' & Hopen)].
        -- exists c. rewrite Nat.sub_diag. done.
        -- exists c'. split; [lia | done].
      * intros (c' & Hle & Hc' & Hopen).
        destruct (decide (a = i)) as [->|Hne]; [by left|].
        right. exists c'. split; [lia | done].
    + rewrite Htail. split.
      * intros (c' & Hle & Hc' & Hopen). exists c'. split; [lia | done].
      * intros (c' & Hle & Hc' & Hopen). exists c'. split; [|done].
        destruct (decide (a = i)) as [->|Hne]; [|lia].
        rewrite Nat.sub_diag in Hc'. injection Hc' as <-. congruence.
Qed.

(** A candidate span at an opening bracket is a balanced span of the
    text, and every balanced span of the text is the candidate at its
    first character. *)
Lemma candidate_balanced (s span : string) (a : nat) :
  (candidate (list_ascii_of_string s) a = Some span /\
   a ∈ starts_from 0 (list_ascii_of_string s)) <->
  exists pre post,
    s = pre +:+ span +:+ post /\ String.length pre = a /\ balanced span.
Proof.
  unfold candidate, slice, balanced. split.
  - intros [Hcand Ha]. apply starts_from_spec in Ha as (c & _ & Hc & Hopen).
    rewrite Nat.sub_0_r in Hc.
    destruct (close_len (drop a (list_ascii_of_string s)) []) as [n|] eqn:Hn;
      [|done].
    cbn [fmap option_fmap option_map] in Hcand. injection Hcand as <-.
    replace (a + n - a) with n by lia.
    assert (drop a (list_ascii_of_string s)
            = c :: drop (S a) (list_ascii_of_string s)) as Hdrop
      by (by apply drop_S).
    assert (n <= length (drop a (list_ascii_of_string s))) as Hle.
    { rewrite Hdrop in Hn |- *. rewrite close_len_open in Hn by done.
      destruct (close_len _ [pairs c]) as [n'|] eqn:Hn'; [|done].
      injection Hn as <-. apply close_len_iff in Hn' as (Hle & _); [|done].
      cbn [length]. lia. }
    exists (string_of_list_ascii (take a (list_ascii_of_string s))),
           (string_of_list_ascii (drop n (drop a (list_ascii_of_string s)))).
    split; [|split].
    + rewrite <- !string_of_chars_app, take_drop, take_drop.
      by rewrite string_of_list_ascii_of_string.
    + rewrite <- chars_length, list_ascii_of_string_of_list_ascii.
      rewrite length_take. apply lookup_lt_Some in Hc. lia.
    + rewrite list_ascii_of_string_of_list_ascii.
      apply (balanced_chars_close_len _
               (drop n (drop a (list_ascii_of_string s)))).
      rewrite take_drop, length_take. split.
      * rewrite Hdrop in Hn |- *. destruct n as [|n].
        { rewrite close_len_open in Hn by done.
          destruct (close_len _ [pairs c]); done. }
        cbn [take]. by eexists _, _.
      * rewrite Hn. f_equal. lia.
  - intros (pre & post & -> & <- & Hbal).
    rewrite !chars_app, <- chars_length, drop_app_length.
    pose proof Hbal as Hb.
    apply (balanced_chars_close_len _ (list_ascii_of_string post)) in Hb
      as [(c & span' & Hspan & Hopen) Hlen].
    rewrite Hlen. cbn [fmap option_fmap option_map]. split.
    + f_equal.
      replace (length (list_ascii_of_string pre)
               + length (list_ascii_of_string span)
               - length (list_ascii_of_string pre))
        with (length (list_ascii_of_string span)) by lia.
      by rewrite take_app_length, string_of_list_ascii_of_string.
    + apply starts_from_spec. exists c. split; [lia|]. split; [|done].
      rewrite Nat.sub_0_r, lookup_app_r, Nat.sub_diag, Hspan by lia. done.
Qed.

Section ExtractorFacts.
Variable json_loads : string -> result pyval.

Lemma scan_close_len (cs : list ascii) (start : nat) (rest : list ascii) :
  forall (i : nat) (stack : list ascii),
    scan json_loads cs start rest i stack =
    decoded json_loads ((fun n => slice cs start (i + n)) <$> close_len rest stack).
Proof.
  assert (forall i (o : option nat),
            decoded json_loads ((fun n => slice cs start (S i + n)) <$> o) =
            decoded json_loads ((fun n => slice cs start (i + n)) <$> (S <$> o))) as Hshift.
  { intros i [n|]; [|done]. cbn. by rewrite Nat.add_succ_r. }
  induction rest as [|c rest IH]; intros i stack; [done|].
  cbn [scan close_len]. destruct (is_open c).
  { by rewrite IH, Hshift. }
  destruct stack as [|top stack'].
  { by rewrite IH, Hshift. }
  destruct (Ascii.eqb c top).
  - destruct stack' as [|t st].
    + cbn. by rewrite Nat.add_1_r.
    + by rewrite IH, Hshift.
  - by rewrite IH, Hshift.
Qed.

Lemma scan_candidate (cs : list ascii) (start : nat) :
  scan json_loads cs start (drop start cs) start [] =
  decoded json_loads (candidate cs start).
Proof. apply scan_close_len. Qed.

(** The outer loop returns the value of the only start that decodes. *)
Lemma for_starts_unique (cs : list ascii) (a : nat) (v : pyval) :
  forall starts,
    a ∈ starts ->
    decoded json_loads (candidate cs a) = Some v ->
    (forall a' v', a' ∈ starts ->
       decoded json_loads (candidate cs a') = Some v' -> a' = a) ->
    for_starts json_loads cs starts = v.
Proof.
  induction starts as [|h starts IH]; intros Ha Hv Huniq.
  - by apply elem_of_nil in Ha.
  - cbn [for_starts]. rewrite scan_candidate.
    destruct (decoded json_loads (candidate cs h)) as [v'|] eqn:Hh.
    + assert (h = a) as -> by (apply (Huniq h v'); [by left | done]).
      congruence.
    + apply IH; [|done|].
      * apply elem_of_cons in Ha as [->|Ha]; [congruence | done].
      * intros a' v' Ha' Hv'. apply (Huniq a' v'); [by right | done].
Qed.

(** The outer loop returns [None] when no start decodes. *)
Lemma for_starts_none (cs : list ascii) :
  forall starts,
    (forall a, a ∈ starts -> decoded json_loads (candidate cs a) = None) ->
    for_starts json_loads cs starts = PNone.
Proof.
  induction starts as [|h starts IH]; intros Hnone; [done|].
  cbn [for_starts]. rewrite scan_candidate, (Hnone h) by (by left).
  apply IH. intros a Ha. apply Hnone. by right.
Qed.

End ExtractorFacts.

Section ExtractorSpec.
Variable json_loads : string -> result pyval.

(** A start that decodes marks a balanced span of the text that parses. *)
Lemma decoded_balanced (s : string) (a : nat) (v : pyval) :
  a ∈ starts_from 0 (list_ascii_of_string s) ->
  decoded json_loads (candidate (list_ascii_of_string s) a) = Some v ->
  exists pre span post,
    s = pre +:+ span +:+ post /\ String.length pre = a /\
    balanced span /\ json_loads span = Ok v.
Proof.
  intros Ha Hd.
  destruct (candidate (list_ascii_of_string s) a) as [span|] eqn:Hc; [|done].
  cbn [decoded] in Hd. destruct (json_loads span) as [v'|e] eqn:Hv; [|done].
  injection Hd as ->.
  destruct (proj1 (candidate_balanced s span a) (conj Hc Ha))
    as (pre & post & Hs & Hlen & Hbal).
  by exists pre, span, post.
Qed.

(** C3: on a text that holds exactly one balanced span that parses, with
    any prose around it, the extractor returns the value of that span; on
    a text with no balanced span, or whose balanced spans all fail to
    parse, it returns [None]. *)
Theorem extract_json_from_text_spec :
  (forall pre span post v,
     balanced span ->
     json_loads span = Ok v ->
     (forall pre' span' post' v',
        pre +:+ span +:+ post = pre' +:+ span' +:+ post' ->
        balanced span' -> json_loads span' = Ok v' ->
        pre' = pre /\ span' = span) ->
     extract_json_from_text json_loads (pre +:+ span +:+ post) = v) /\
  (forall s,
     (forall pre span post,
        s = pre +:+ span +:+ post -> balanced span ->
        exists e, json_loads span = Raise e) ->
     extract_json_from_text json_loads s = PNone).
Proof.
  split.
  - intros pre span post v Hbal Hv Huniq. unfold extract_json_from_text.
    destruct (proj2 (candidate_balanced (pre +:+ span +:+ post) span
                       (String.length pre))) as [Hc Ha].
    { by exists pre, post. }
    apply (for_starts_unique json_loads _ (String.length pre) v); [done| |].
    + rewrite Hc. cbn [decoded]. by rewrite Hv.
    + intros a' v' Ha' Hd'.
      destruct (decoded_balanced _ a' v' Ha' Hd')
        as (pre' & span' & post' & Hs & <- & Hbal' & Hv').
      by destruct (Huniq pre' span' post' v' Hs Hbal' Hv') as [-> _].
  - intros s Hnone. unfold extract_json_from_text.
    apply for_starts_none. intros a Ha.
    destruct (decoded json_loads (candidate (list_ascii_of_string s) a))
      as [v|] eqn:Hd; [|done].
    destruct (decoded_balanced s a v Ha Hd)
      as (pre & span & post & Hs & _ & Hbal & Hv).
    destruct (Hnone pre span post Hs Hbal) as [e He]. congruence.
Qed.

End ExtractorSpec.

(** Settles where a known span can sit in a concrete text: [H] reads
    [pre +:+ span +:+ post = text]; every position but the right one is
    refuted by comparing characters. *)
Ltac locate H pre :=
  let c := fresh "c" in
  destruct pre as [|c pre]; vm_compute in H;
  [ first [discriminate H | done | (split; reflexivity)]
  | first [discriminate H | (injection H as -> H; locate H pre)] ].

Lemma extract_json_from_text_spec_witness :
  extract_json_from_text (json_loads_table table_x1)
    ("ok " +:+ doc_x1 +:+ "!") = val_x1 /\
  extract_json_from_text (json_loads_table table_x1) "no {span] here" = PNone.
Proof.
  destruct (extract_json_from_text_spec (json_loads_table table_x1))
    as [Hone Hnone].
  split.
  - apply Hone.
    + apply (balanced_chars_close_len _ []). split.
      * eexists _, _. split; reflexivity.
      * vm_compute. reflexivity.
    + vm_compute. reflexivity.
    + intros pre' span' post' v' Hs _ Hv'.
      assert (span' = doc_x1) as ->.
      { unfold json_loads_table, table_x1 in Hv'.
        destruct (String.eqb_spec span' doc_x1); [done | discriminate]. }
      symmetry in Hs. locate Hs pre'.
  - apply Hnone. intros pre span post Hs _.
    destruct (String.eqb_spec span doc_x1) as [->|Hne].
    + symmetry in Hs. locate Hs pre.
    + eexists. unfold json_loads_table, table_x1.
      apply String.eqb_neq in Hne. rewrite Hne. reflexivity.
Defined.

(** * Further properties of the controller *)

(** ** CommandSafetyGate, characterized *)

Lemma str_app_length (s t : string) :
  String.length (s +:+ t) = String.length s + String.length t.
Proof.
  induction s as [|c s IH]; [done|].
  change (String c s +:+ t) with (String c (s +:+ t)). cbn. by rewrite IH.
Qed.

Lemma str_app_assoc (s t u : string) : (s +:+ t) +:+ u = s +:+ (t +:+ u).
Proof.
  induction s as [|c s IH]; [done|].
  change ((String c s +:+ t) +:+ u) with (String c ((s +:+ t) +:+ u)).
  by rewrite IH.
Qed.

Lemma substring_of_inside (b l m r : string) :
  substring_of b m -> substring_of b (l +:+ m +:+ r).
Proof.
  intros (l' & r' & ->). exists (l +:+ l'), (r' +:+ r).
  by rewrite !str_app_assoc.
Qed.

(** The gate accepts a string exactly when it is not empty, has at most
    200 characters and holds no entry of the denylist. *)
Lemma is_safe_command_true (s : string) :
  is_safe_command (PStr s) = Ok true <->
  s <> EmptyString /\ String.length s <= 200 /\
  forall b, b ∈ banned -> ~ substring_of b s.
Proof.
  rewrite is_safe_command_str.
  assert (existsb (fun b => str_contains b s) banned = true <->
          exists b, b ∈ banned /\ substring_of b s) as Hex.
  { rewrite existsb_exists. split; intros (b & Hb & Hsub); exists b.
    - split; [by apply list_elem_of_In | by apply str_contains_spec].
    - split; [by apply list_elem_of_In | by apply str_contains_spec]. }
  destruct (existsb (fun b => str_contains b s) banned) eqn:Hban.
  { rewrite andb_false_r. split; [done|]. intros (_ & _ & Hno).
    destruct (proj1 Hex eq_refl) as (b & Hb & Hsub). by destruct (Hno b). }
  split.
  - intros [= H]. rewrite andb_true_r in H.
    apply andb_true_iff in H as [Hne Hlen].
    apply negb_true_iff in Hne, Hlen. split; [|split].
    + by apply String.eqb_neq.
    + by apply Nat.ltb_ge.
    + intros b Hb Hsub. assert (false = true); [|done].
      apply Hex. by exists b.
  - intros (Hne & Hlen & _). f_equal.
    apply String.eqb_neq in Hne. apply Nat.ltb_ge in Hlen.
    by rewrite Hne, Hlen.
Qed.

(** X1: on a string the gate never raises, and it answers true exactly
    when the string is not empty, has at most 200 characters and contains
    none of the eleven denylist entries; in every other case it answers
    false. *)
Theorem is_safe_command_exact (s : string) :
  exists ok,
    is_safe_command (PStr s) = Ok ok /\
    (ok = true <->
     s <> EmptyString /\ String.length s <= 200 /\
     forall b, b ∈ banned -> ~ substring_of b s).
Proof.
  rewrite is_safe_command_str. eexists. split; [reflexivity|].
  rewrite <- is_safe_command_true, is_safe_command_str. split; congruence.
Qed.

Lemma is_safe_command_exact_witness :
  is_safe_command (PStr "echo hello") = Ok true /\
  forall b, b ∈ banned -> ~ substring_of b "echo hello".
Proof.
  destruct (is_safe_command_exact "echo hello") as (ok & Hrun & Hok).
  assert (ok = true) as -> by (vm_compute in Hrun; congruence).
  split; [exact Hrun|]. apply Hok. reflexivity.
Defined.

(** X2: the gate is closed under taking parts: every non-empty contiguous
    part of an accepted command is accepted. *)
Theorem is_safe_command_part (l m r : string) :
  is_safe_command (PStr (l +:+ m +:+ r)) = Ok true ->
  m <> EmptyString ->
  is_safe_command (PStr m) = Ok true.
Proof.
  intros Hsafe Hne. apply is_safe_command_true in Hsafe as (_ & Hlen & Hban).
  apply is_safe_command_true. split; [done|]. split.
  - rewrite !str_app_length in Hlen. lia.
  - intros b Hb Hsub. apply (Hban b Hb). by apply substring_of_inside.
Qed.

Lemma is_safe_command_part_witness :
  is_safe_command (PStr "hello") = Ok true.
Proof.
  apply (is_safe_command_part "echo " "hello" EmptyString).
  - reflexivity.
  - discriminate.
Defined.

(** ** CommandRunner, in full *)

Section RunnerLaunch.
Context {LLM OS : Type}.
Variable subprocess_run : string -> OS -> result completed_process * OS.

(** The runner on a string the gate accepts and that is not blank: the
    process is launched once and its outcome wrapped. *)
Lemma execute_command_run (s : string) (w : world LLM OS) :
  is_safe_command (PStr s) = Ok true -> ~ blank s ->
  execute_command subprocess_run (PStr s) w =
  match run_process subprocess_run s w with
  | (Ok cp, w') => (Ok (executed cp), w')
  | (Raise e, w') => (Ok (failed e), w')
  end.
Proof.
  intros Hsafe Hnb. unfold execute_command. rewrite Hsafe.
  assert (strip s <> EmptyString) as Hs by (by rewrite strip_empty).
  apply String.eqb_neq in Hs. cbn [py_truthy]. by rewrite Hs.
Qed.

(** The runner on a string the gate accepts but that is blank. *)
Lemma execute_command_missing (s : string) (w : world LLM OS) :
  is_safe_command (PStr s) = Ok true -> blank s ->
  execute_command subprocess_run (PStr s) w
  = (Ok (rejected "missing command"), w).
Proof.
  intros Hsafe Hb. unfold execute_command. rewrite Hsafe.
  apply strip_empty in Hb. by rewrite Hb.
Qed.

Lemma blank_dec (s : string) : blank s \/ ~ blank s.
Proof.
  destruct (String.eqb_spec (strip s) EmptyString) as [H|H];
    rewrite strip_empty in H; auto.
Qed.

(** X3: whatever its argument, the runner launches at most one process,
    and only a string that the gate accepts and that is not blank, passed
    verbatim; it never touches the generator.  In every other case the
    world is left as it was. *)
Theorem execute_command_launch (command : pyval) (w w' : world LLM OS)
    (r : result pyval) :
  execute_command subprocess_run command w = (r, w') ->
  llm w' = llm w /\ asked w' = asked w /\
  (w' = w \/
   exists s, command = PStr s /\ launched w' = launched w ++ [s] /\
             is_safe_command (PStr s) = Ok true /\ ~ blank s).
Proof.
  intros Hrun.
  destruct (is_safe_command command) as [[|]|e] eqn:Hsafe;
    try (unfold execute_command in Hrun; rewrite Hsafe in Hrun;
         injection Hrun as _ <-; by auto).
  destruct command as [| | | |s| |];
    try (unfold execute_command in Hrun; rewrite Hsafe in Hrun;
         injection Hrun as _ <-; by auto).
  destruct (blank_dec s) as [Hb|Hnb].
  - rewrite execute_command_missing in Hrun by done.
    injection Hrun as _ <-. auto.
  - rewrite execute_command_run in Hrun by done. unfold run_process in Hrun.
    destruct (subprocess_run s (os w)) as [[cp|e] o];
      injection Hrun as _ <-; cbn;
      (split; [done|]); (split; [done|]); right; by exists s.
Qed.

(** X4: on a string the runner never raises, whatever the launcher does.
    Its result is rejected (nothing launched), executed with the exit code
    and both captured streams of the completed process, or error with the
    text of the launcher's exception. *)
Theorem execute_command_status (s : string) (w : world LLM OS) :
  exists res w',
    execute_command subprocess_run (PStr s) w = (Ok (PDict res), w') /\
    ((res !! "status" = Some (PStr "rejected") /\ w' = w) \/
     (exists cp o,
        subprocess_run s (os w) = (Ok cp, o) /\
        res !! "status" = Some (PStr "executed") /\
        res !! "exit_code" = Some (PInt (returncode cp)) /\
        res !! "stdout" = Some (PStr (stdout cp)) /\
        res !! "stderr" = Some (PStr (stderr cp))) \/
     (exists e o,
        subprocess_run s (os w) = (Raise e, o) /\
        res !! "status" = Some (PStr "error") /\
        res !! "error" = Some (PStr (exn_str e)))).
Proof.
  destruct (is_safe_command (PStr s)) as [[|]|e] eqn:Hsafe.
  - destruct (blank_dec s) as [Hb|Hnb].
    + rewrite execute_command_missing by done.
      eexists _, _. split; [reflexivity|]. left. by split.
    + rewrite execute_command_run by done. unfold run_process.
      destruct (subprocess_run s (os w)) as [[cp|e] o] eqn:Hsub.
      * eexists _, _. split; [reflexivity|]. right. left.
        exists cp, o. by repeat split.
      * eexists _, _. split; [reflexivity|]. right. right.
        exists e, o. by repeat split.
  - unfold execute_command. rewrite Hsafe.
    eexists _, _. split; [reflexivity|]. left. by split.
  - rewrite is_safe_command_str in Hsafe. discriminate.
Qed.

(** X5: a number or boolean that is truthy is not rejected: [len] of it
    raises [TypeError] inside the gate, and the runner lets the exception
    through with the world unchanged. *)
Theorem execute_command_number (v : pyval) (w : world LLM OS) :
  match v with PInt _ | PFloat _ | PBool _ => True | _ => False end ->
  py_truthy v = true ->
  execute_command subprocess_run v w =
  (Raise (TypeError ("object of type '" +:+ type_name v +:+ "' has no len()")),
   w).
Proof.
  intros Hnum Htrue. unfold execute_command, is_safe_command.
  rewrite Htrue. by destruct v.
Qed.

End RunnerLaunch.

Lemma execute_command_launch_witness :
  exists r w',
    execute_command echo_run (PStr "dir") (world0 []) = (r, w') /\
    launched w' = ["dir"].
Proof.
  destruct (execute_command echo_run (PStr "dir") (world0 [])) as [r w']
    eqn:Hrun.
  exists r, w'. split; [reflexivity|].
  destruct (execute_command_launch echo_run _ _ _ _ Hrun)
    as (_ & _ & [Hsame | (s & Hs & Hlog & _)]).
  - vm_compute in Hrun. injection Hrun as _ <-. discriminate.
  - injection Hs as <-. exact Hlog.
Defined.

Lemma execute_command_number_witness :
  execute_command echo_run (PInt 5) (world0 []) =
  (Raise (TypeError "object of type 'int' has no len()"), world0 []).
Proof.
  apply (execute_command_number echo_run (PInt 5)); [exact I | reflexivity].
Defined.

(** ** DecisionNormalizer, field by field *)

Lemma coerce_lookup (d out : gmap string pyval) :
  d !! "error" = None ->
  _coerce_agent_json (PDict d) = Ok (PDict out) ->
  forall k, out !! k = decision_lookup d k.
Proof.
  intros Herr Hrun. destruct (coerce_decision d Herr) as (out' & Hrun' & Hout).
  rewrite Hrun in Hrun'. by injection Hrun' as <-.
Qed.

Lemma payload_of_lookup (d : gmap string pyval) (k : string) :
  payload_of d !! k = if decide (k ∈ schema_keys) then None else d !! k.
Proof.
  unfold payload_of. rewrite map_lookup_filter.
  destruct (d !! k) as [v|]; simpl; case_decide; try done.
  - by rewrite option_guard_False by (simpl; tauto).
  - by rewrite option_guard_True.
Qed.

(** X6: in command mode the normalizer keeps [command] when it is a
    string and replaces anything else, or nothing, by null; [data] is kept
    as it is, and is null when the source has none. *)
Theorem command_mode_fields (d out : gmap string pyval) :
  d !! "error" = None ->
  _coerce_agent_json (PDict d) = Ok (PDict out) ->
  out !! "action" = Some (PStr "command") ->
  (forall s, d !! "command" = Some (PStr s) ->
             out !! "command" = Some (PStr s)) /\
  ((forall s, d !! "command" <> Some (PStr s)) ->
   out !! "command" = Some PNone) /\
  out !! "data" = Some (default PNone (d !! "data")).
Proof.
  intros Herr Hrun Hact. pose proof (coerce_lookup d out Herr Hrun) as Hout.
  rewrite Hout in Hact. rewrite !Hout. unfold decision_lookup in *.
  repeat (rewrite decide_False in * by done).
  repeat (rewrite decide_True in * by done).
  injection Hact as Hact. unfold command_of, data_of. rewrite Hact.
  cbn [String.eqb Ascii.eqb Bool.eqb andb]. unfold dict_get.
  repeat split.
  - by intros s ->.
  - intros Hno. destruct (d !! "command") as [[]|]; try done.
    by destruct (Hno s).
Qed.

Lemma command_mode_fields_witness :
  exists out,
    _coerce_agent_json (PDict dir_request) = Ok (PDict out) /\
    out !! "command" = Some (PStr "dir") /\ out !! "data" = Some PNone.
Proof.
  destruct (command_mode_fields dir_request dir_decision)
    as (Hcmd & _ & Hdata); try (vm_compute; reflexivity).
  exists dir_decision. split; [vm_compute; reflexivity|].
  split; [apply Hcmd; reflexivity | exact Hdata].
Defined.

(** X7: the normalizer touches the five schema keys only: every other key
    of the source is carried over with its value, and no other key is
    added; in particular it never introduces an [error] key. *)
Theorem coerce_keeps_other_keys (d out : gmap string pyval) :
  d !! "error" = None ->
  _coerce_agent_json (PDict d) = Ok (PDict out) ->
  (forall k, k ∉ schema_keys -> out !! k = d !! k) /\
  out !! "error" = None /\
  payload_of out = payload_of d.
Proof.
  intros Herr Hrun. pose proof (coerce_lookup d out Herr Hrun) as Hout.
  assert (forall k, k ∉ schema_keys -> out !! k = d !! k) as Hother.
  { intros k Hk. rewrite Hout. unfold decision_lookup, schema_keys in *.
    repeat case_decide; subst; try done; exfalso; apply Hk; set_solver. }
  split; [done|]. split.
  - rewrite Hother; [done|]. unfold schema_keys.
    rewrite !elem_of_cons, elem_of_nil. intros [H|[H|[H|[H|[H|[]]]]]]; discriminate.
  - by apply payload_of_ext.
Qed.

Lemma coerce_keeps_other_keys_witness :
  exists out,
    _coerce_agent_json (PDict (<["note" := PInt 7]> dir_request))
    = Ok (PDict out) /\
    out !! "note" = Some (PInt 7).
Proof.
  destruct (_coerce_agent_json (PDict (<["note" := PInt 7]> dir_request)))
    as [[| | | | | |out]|e] eqn:Hrun; try (vm_compute in Hrun; discriminate).
  exists out. split; [reflexivity|].
  destruct (coerce_keeps_other_keys (<["note" := PInt 7]> dir_request) out)
    as (Hother & _ & _); [reflexivity | exact Hrun |].
  rewrite Hother; [reflexivity|].
  unfold schema_keys. rewrite !elem_of_cons, elem_of_nil.
  intros [H|[H|[H|[H|[H|[]]]]]]; discriminate.
Defined.

(** X8: a well-typed field is kept and an ill-typed or missing one gets
    its default: [plan] stays when it is a list and becomes the empty list
    otherwise; [expose_to_user] stays when it is a boolean and becomes true
    otherwise; an [action] that is "answer" or "command" stays. *)
Theorem coerce_defaults (d out : gmap string pyval) :
  d !! "error" = None ->
  _coerce_agent_json (PDict d) = Ok (PDict out) ->
  (forall l, d !! "plan" = Some (PList l) -> out !! "plan" = Some (PList l)) /\
  ((forall l, d !! "plan" <> Some (PList l)) ->
   out !! "plan" = Some (PList [])) /\
  (forall b, d !! "expose_to_user" = Some (PBool b) ->
             out !! "expose_to_user" = Some (PBool b)) /\
  ((forall b, d !! "expose_to_user" <> Some (PBool b)) ->
   out !! "expose_to_user" = Some (PBool true)) /\
  (d !! "action" = Some (PStr "answer") ->
   out !! "action" = Some (PStr "answer")) /\
  (d !! "action" = Some (PStr "command") ->
   out !! "action" = Some (PStr "command")).
Proof.
  intros Herr Hrun. pose proof (coerce_lookup d out Herr Hrun) as Hout.
  rewrite !Hout. unfold decision_lookup.
  repeat (rewrite decide_False by done).
  repeat (rewrite decide_True by done).
  unfold plan_of, expose_of, resolved_action, dict_get.
  repeat split.
  - by intros l ->.
  - intros Hno. destruct (d !! "plan") as [[]|]; try done. by destruct (Hno l).
  - by intros b ->.
  - intros Hno. destruct (d !! "expose_to_user") as [[]|]; try done.
    by destruct (Hno b).
  - by intros ->.
  - by intros ->.
Qed.

Lemma coerce_defaults_witness :
  exists out,
    _coerce_agent_json (PDict dir_request) = Ok (PDict out) /\
    out !! "plan" = Some (PList []) /\
    out !! "expose_to_user" = Some (PBool true).
Proof.
  destruct (coerce_defaults dir_request dir_decision)
    as (_ & Hplan & _ & Hexp & _); try (vm_compute; reflexivity).
  exists dir_decision. split; [vm_compute; reflexivity|]. split.
  - apply Hplan. intros l. vm_compute. discriminate.
  - apply Hexp. intros b. vm_compute. discriminate.
Defined.

(** X9: in answer mode a [data] that is present and not null is kept; a
    [data] that is missing or null is replaced by the mapping of all the
    keys of the source outside the schema, with their values, when there
    is such a key, and is null when there is none. *)
Theorem answer_data_synthesis (d out : gmap string pyval) :
  d !! "error" = None ->
  _coerce_agent_json (PDict d) = Ok (PDict out) ->
  out !! "action" = Some (PStr "answer") ->
  (forall v, d !! "data" = Some v -> v <> PNone -> out !! "data" = Some v) /\
  (d !! "data" = None \/ d !! "data" = Some PNone ->
   (payload_of d <> ∅ -> out !! "data" = Some (PDict (payload_of d))) /\
   (payload_of d = ∅ -> out !! "data" = Some PNone)) /\
  (forall k, payload_of d !! k =
             if decide (k ∈ schema_keys) then None else d !! k).
Proof.
  intros Herr Hrun Hact. pose proof (coerce_lookup d out Herr Hrun) as Hout.
  rewrite Hout in Hact. rewrite !Hout. unfold decision_lookup in *.
  repeat (rewrite decide_False in * by done).
  repeat (rewrite decide_True in * by done).
  injection Hact as Hact. unfold data_of. rewrite Hact.
  cbn [String.eqb Ascii.eqb Bool.eqb andb]. unfold dict_get.
  split; [|split; [|apply payload_of_lookup]].
  - intros v -> Hv. by destruct v.
  - intros Hnull.
    assert (is_none (default PNone (d !! "data")) = true) as ->
      by (by destruct Hnull as [-> | ->]).
    assert (default PNone (d !! "data") = PNone) as Hdata
      by (by destruct Hnull as [-> | ->]).
    cbn [py_truthy]. split; intros Hp.
    + by rewrite bool_decide_false.
    + by rewrite bool_decide_true.
Qed.

Lemma answer_data_synthesis_witness :
  exists out,
    _coerce_agent_json (PDict (<["city" := PStr "Oslo"]> ∅)) = Ok (PDict out) /\
    out !! "data" = Some (PDict (<["city" := PStr "Oslo"]> ∅)).
Proof.
  destruct (_coerce_agent_json (PDict (<["city" := PStr "Oslo"]> ∅)))
    as [[| | | | | |out]|e] eqn:Hrun; try (vm_compute in Hrun; discriminate).
  exists out. split; [reflexivity|].
  destruct (answer_data_synthesis (<["city" := PStr "Oslo"]> ∅) out)
    as (_ & Hsynth & _).
  - reflexivity.
  - exact Hrun.
  - vm_compute in Hrun. injection Hrun as <-. vm_compute. reflexivity.
  - destruct Hsynth as [Hfull _]; [left; reflexivity|].
    rewrite Hfull; [vm_compute; reflexivity|].
    intros Hempty. apply (f_equal (fun m => m !! "city")) in Hempty.
    vm_compute in Hempty. discriminate.
Defined.

(** X10: the decisions the normalizer leaves unchanged.  A mapping
    without an [error] key is returned as it is exactly when it is
    canonical, its [command] is a string or null if the action is
    "command", and its [data] is not null or it has no key outside the
    schema if the action is "answer". *)
Theorem coerce_fixed_point (d : gmap string pyval) :
  d !! "error" = None ->
  (_coerce_agent_json (PDict d) = Ok (PDict d) <->
   canonical d /\
   (d !! "action" = Some (PStr "command") ->
    exists v, d !! "command" = Some v /\ (is_str v = true \/ v = PNone)) /\
   (d !! "action" = Some (PStr "answer") ->
    d !! "data" <> Some PNone \/ payload_of d = ∅)).
Proof.
  intros Herr. split.
  - intros Hrun. pose proof (coerce_lookup d d Herr Hrun) as Hd.
    split; [by apply (decision_canonical d)|].
    assert (d !! "action" = Some (PStr (resolved_action d))) as Hact.
    { rewrite Hd at 1. unfold decision_lookup.
      by rewrite decide_False, decide_True. }
    assert (d !! "command" = Some (command_of d)) as Hcmd.
    { rewrite Hd at 1. unfold decision_lookup.
      repeat (rewrite decide_False by done). by rewrite decide_True. }
    assert (d !! "data" = Some (data_of d)) as Hdata.
    { rewrite Hd at 1. unfold decision_lookup.
      repeat (rewrite decide_False by done). by rewrite decide_True. }
    split.
    + intros Ha. rewrite Hact in Ha. injection Ha as Ha.
      exists (command_of d). split; [done|]. unfold command_of. rewrite Ha.
      cbn [String.eqb Ascii.eqb Bool.eqb andb].
      destruct (is_str (dict_get d "command")) eqn:E; auto.
    + intros Ha. rewrite Hact in Ha. injection Ha as Ha.
      destruct (decide (payload_of d = ∅)) as [Hp|Hp]; [by right|]. left.
      rewrite Hdata. unfold data_of. rewrite Ha.
      cbn [String.eqb Ascii.eqb Bool.eqb andb py_truthy].
      rewrite bool_decide_false by done. cbn [negb].
      destruct (dict_get d "data"); cbn [is_none]; congruence.
  - intros ((Hplan & Hact & Hexp & Hdata & Hcmd) & Hcmode & Hamode).
    destruct (coerce_decision d Herr) as (out & Hrun & Hout).
    rewrite Hrun. do 2 f_equal. apply map_eq. intros k. rewrite Hout.
    destruct Hplan as [l Hplan], Hexp as [b Hexp],
      Hdata as [vd Hdata], Hcmd as [vc Hcmd].
    unfold decision_lookup, plan_of, expose_of, command_of, data_of,
      resolved_action, dict_get.
    rewrite Hplan, Hexp, Hdata, Hcmd. cbn [default from_option id is_list is_bool].
    destruct Hact as [Ha | Ha]; rewrite Ha in *;
      cbn [default from_option id py_eq_str String.eqb Ascii.eqb Bool.eqb
           andb orb negb];
      repeat case_decide; subst; try done.
    + destruct (Hamode eq_refl) as [Hnn | Hp].
      * destruct vd; cbn [is_none]; congruence.
      * cbn [py_truthy]. rewrite bool_decide_true by done. cbn [negb].
        by destruct vd.
    + destruct (Hcmode eq_refl) as (v & Hv & Hs).
      assert (v = vc) as -> by congruence.
      destruct Hs as [Hs | ->]; [by rewrite Hs | done].
Qed.

Lemma coerce_fixed_point_witness :
  _coerce_agent_json (PDict dir_decision) = Ok (PDict dir_decision) /\
  canonical dir_decision.
Proof.
  destruct (coerce_fixed_point dir_decision) as [Hto _]; [reflexivity|].
  split; [vm_compute; reflexivity|]. apply Hto. vm_compute. reflexivity.
Defined.

(** ** DecisionController: what the envelope holds *)

Section EnvelopeContent.
Context {LLM OS : Type}.
Variable subprocess_run : string -> OS -> result completed_process * OS.

(** The envelope of a mapping without an [error] key, from the mapping
    alone. *)
Lemma process_mapping (d0 : gmap string pyval) (w : world LLM OS) :
  d0 !! "error" = None ->
  process_agent_output subprocess_run (PDict d0) w =
  if String.eqb (resolved_action d0) "command" then
    match execute_command subprocess_run (command_of d0) w with
    | (Ok execution, w') =>
        (Ok (PDict (<["execution" := execution]>
                    (<["plan" := plan_of d0]>
                     (<["expose_to_user" := expose_of d0]> ∅)))), w')
    | (Raise e, w') => (Raise e, w')
    end
  else
    (Ok (PDict (<["data" := data_of d0]>
                (<["plan" := plan_of d0]>
                 (<["expose_to_user" := expose_of d0]> ∅)))), w).
Proof.
  intros Herr0. destruct (coerce_decision d0 Herr0) as (d & Hrun & Hd).
  assert (d !! "error" = None) as Herr.
  { rewrite Hd. unfold decision_lookup.
    by repeat (rewrite decide_False by done). }
  assert (d !! "plan" = Some (plan_of d0)) as Hplan by (by rewrite Hd).
  assert (d !! "expose_to_user" = Some (expose_of d0)) as Hexp by (by rewrite Hd).
  assert (d !! "action" = Some (PStr (resolved_action d0))) as Hact
    by (by rewrite Hd).
  assert (d !! "command" = Some (command_of d0)) as Hcmd by (by rewrite Hd).
  assert (d !! "data" = Some (data_of d0)) as Hdata by (by rewrite Hd).
  unfold process_agent_output, mbind, M_bind, lift, mret, M_ret.
  rewrite Hrun. cbn [py_contains py_get py_getitem].
  rewrite bool_decide_false by (rewrite Herr; by intros [? ?]).
  unfold dict_get_or, dict_getitem. rewrite Hact, Hexp, Hplan, Hcmd, Hdata.
  cbn [default from_option id py_eq_str].
  destruct (resolved_action_cases d0) as [Ha | Ha]; rewrite Ha;
    cbn [String.eqb Ascii.eqb Bool.eqb andb]; [done|].
  by destruct (execute_command subprocess_run (command_of d0) w) as [[ex|e] w'].
Qed.

(** The normalized decision in terms of its source. *)
Lemma normalized_fields (agent_json : pyval) (d : gmap string pyval) :
  _coerce_agent_json agent_json = Ok (PDict d) ->
  d !! "error" = None ->
  exists d0,
    agent_json = PDict d0 /\ d0 !! "error" = None /\
    d !! "action" = Some (PStr (resolved_action d0)) /\
    dict_get d "plan" = plan_of d0 /\
    dict_get d "expose_to_user" = expose_of d0 /\
    dict_get d "command" = command_of d0 /\
    dict_get d "data" = data_of d0.
Proof.
  intros Hrun Herr.
  destruct (coerce_no_error_inv _ _ Hrun Herr) as (d0 & -> & Herr0 & Hd).
  exists d0. split; [done|]. split; [done|].
  split; [by rewrite Hd|]. unfold dict_get. by rewrite !Hd.
Qed.

(** X11: an input that is not a mapping, and a mapping that carries an
    [error] key, are never acted upon: the envelope is the type error,
    respectively the mapping itself, whatever else the mapping holds, and
    the world is untouched. *)
Theorem process_agent_output_errors (w : world LLM OS) :
  (forall x, is_dict x = false ->
     process_agent_output subprocess_run x w =
     (Ok (PDict (<["error" := PStr "invalid_json_type"]>
                 (<["detail" := PStr (type_str x)]> ∅))), w)) /\
  (forall d, is_Some (d !! "error") ->
     process_agent_output subprocess_run (PDict d) w = (Ok (PDict d), w)).
Proof.
  split.
  - intros x Hx. by destruct x.
  - intros d Herr.
    unfold process_agent_output, mbind, M_bind, lift, mret, M_ret.
    unfold _coerce_agent_json, dict_has. rewrite bool_decide_true by done.
    cbn [py_contains]. by rewrite bool_decide_true.
Qed.

(** X12: on the answer path the envelope has exactly the keys [plan],
    [expose_to_user] and [data], each with the value of the normalized
    decision, and handling it changes nothing in the world: no process is
    launched and the generator is not called. *)
Theorem process_agent_output_answer (agent_json : pyval)
    (d : gmap string pyval) (w : world LLM OS) :
  _coerce_agent_json agent_json = Ok (PDict d) ->
  d !! "error" = None ->
  d !! "action" = Some (PStr "answer") ->
  process_agent_output subprocess_run agent_json w =
  (Ok (PDict (<["data" := dict_get d "data"]>
              (<["plan" := dict_get d "plan"]>
               (<["expose_to_user" := dict_get d "expose_to_user"]> ∅)))), w).
Proof.
  intros Hrun Herr Hact.
  destruct (normalized_fields _ _ Hrun Herr)
    as (d0 & -> & Herr0 & Ha & -> & -> & _ & ->).
  rewrite Hact in Ha. injection Ha as Ha.
  rewrite process_mapping by done. by rewrite <- Ha.
Qed.

(** X13: on the command path the runner is called once, on the [command]
    of the normalized decision; it does not raise, and the envelope has
    exactly the keys [plan], [expose_to_user] and [execution], the last
    holding the runner's result. *)
Theorem process_agent_output_command (agent_json : pyval)
    (d : gmap string pyval) (w : world LLM OS) :
  _coerce_agent_json agent_json = Ok (PDict d) ->
  d !! "error" = None ->
  d !! "action" = Some (PStr "command") ->
  exists execution w',
    execute_command subprocess_run (dict_get d "command") w
      = (Ok execution, w') /\
    process_agent_output subprocess_run agent_json w =
    (Ok (PDict (<["execution" := execution]>
                (<["plan" := dict_get d "plan"]>
                 (<["expose_to_user" := dict_get d "expose_to_user"]> ∅)))),
     w').
Proof.
  intros Hrun Herr Hact.
  destruct (normalized_fields _ _ Hrun Herr)
    as (d0 & -> & Herr0 & Ha & -> & -> & -> & _).
  rewrite Hact in Ha. injection Ha as Ha.
  rewrite process_mapping by done. rewrite <- Ha.
  cbn [String.eqb Ascii.eqb Bool.eqb andb].
  assert (is_str (command_of d0) = true \/ command_of d0 = PNone) as Hc.
  { unfold command_of. rewrite <- Ha. cbn.
    destruct (is_str (dict_get d0 "command")) eqn:E; auto. }
  destruct (execute_command_returns subprocess_run _ w Hc) as (r & w' & Hex).
  exists r, w'. by rewrite Hex.
Qed.

(** X14: a command the gate refuses is reported, not run: when the
    decision is a command whose [command] is absent, empty, too long or
    holds a denylist entry, the envelope's [execution] is the rejection
    "unsafe command" and the world is untouched. *)
Theorem process_agent_output_refused (agent_json : pyval)
    (d : gmap string pyval) (w : world LLM OS) :
  _coerce_agent_json agent_json = Ok (PDict d) ->
  d !! "error" = None ->
  d !! "action" = Some (PStr "command") ->
  is_safe_command (dict_get d "command") = Ok false ->
  process_agent_output subprocess_run agent_json w =
  (Ok (PDict (<["execution" := rejected "unsafe command"]>
              (<["plan" := dict_get d "plan"]>
               (<["expose_to_user" := dict_get d "expose_to_user"]> ∅)))), w).
Proof.
  intros Hrun Herr Hact Hsafe.
  destruct (normalized_fields _ _ Hrun Herr)
    as (d0 & -> & Herr0 & Ha & -> & -> & Hcmd & _).
  rewrite Hact in Ha. injection Ha as Ha.
  rewrite process_mapping by done. rewrite <- Ha.
  cbn [String.eqb Ascii.eqb Bool.eqb andb].
  rewrite Hcmd in Hsafe. unfold execute_command. by rewrite Hsafe.
Qed.

End EnvelopeContent.

Lemma process_agent_output_errors_witness :
  process_agent_output echo_run (PList []) (world0 []) =
    (Ok (PDict (<["error" := PStr "invalid_json_type"]>
                (<["detail" := PStr "<class 'list'>"]> ∅))), world0 []) /\
  process_agent_output echo_run
    (PDict (<["error" := PStr "unknown"]> dir_request)) (world0 []) =
    (Ok (PDict (<["error" := PStr "unknown"]> dir_request)), world0 []).
Proof.
  destruct (process_agent_output_errors echo_run (world0 [])) as [Htype Hpass].
  split.
  - apply (Htype (PList [])). reflexivity.
  - apply Hpass. exists (PStr "unknown"). reflexivity.
Defined.

Lemma process_agent_output_answer_witness :
  exists env,
    process_agent_output echo_run (PDict answer_with_command) (world0 [])
      = (Ok (PDict env), world0 []) /\
    env !! "data" = Some PNone /\ env !! "execution" = None.
Proof.
  destruct (_coerce_agent_json (PDict answer_with_command))
    as [[| | | | | |d]|e] eqn:Hrun; try (vm_compute in Hrun; discriminate).
  assert (d !! "error" = None /\ d !! "action" = Some (PStr "answer") /\
          dict_get d "data" = PNone) as (Herr & Hact & Hdata).
  { vm_compute in Hrun. injection Hrun as <-. repeat split. }
  eexists. split.
  - apply (process_agent_output_answer echo_run _ d); assumption.
  - rewrite Hdata. split; reflexivity.
Defined.

Lemma process_agent_output_command_witness :
  exists execution w',
    process_agent_output echo_run (PDict dir_request) (world0 []) =
    (Ok (PDict (<["execution" := execution]>
                (<["plan" := PList []]>
                 (<["expose_to_user" := PBool true]> ∅)))), w') /\
    launched w' = ["dir"].
Proof.
  destruct (process_agent_output_command echo_run (PDict dir_request)
              dir_decision (world0 []))
    as (execution & w' & Hexec & Hrun); try (vm_compute; reflexivity).
  exists execution, w'. split; [exact Hrun|].
  vm_compute in Hexec. by injection Hexec as _ <-.
Defined.

Lemma process_agent_output_refused_witness :
  exists env,
    process_agent_output echo_run
      (PDict (<["action" := PStr "command"]> ∅)) (world0 [])
      = (Ok (PDict env), world0 []) /\
    env !! "execution" = Some (rejected "unsafe command").
Proof.
  destruct (_coerce_agent_json (PDict (<["action" := PStr "command"]> ∅)))
    as [[| | | | | |d]|e] eqn:Hrun; try (vm_compute in Hrun; discriminate).
  assert (d !! "error" = None /\ d !! "action" = Some (PStr "command") /\
          dict_get d "command" = PNone) as (Herr & Hact & Hcmd).
  { vm_compute in Hrun. injection Hrun as <-. repeat split. }
  eexists. split.
  - apply (process_agent_output_refused echo_run _ d); try assumption.
    rewrite Hcmd. reflexivity.
  - reflexivity.
Defined.

(** ** StructuredValueExtractor: order and soundness *)

(** The start positions come in increasing order. *)
Lemma starts_from_split (cs : list ascii) :
  forall i a,
    a ∈ starts_from i cs ->
    exists l1 l2,
      starts_from i cs = l1 ++ a :: l2 /\ forall x, x ∈ l1 -> x < a.
Proof.
  induction cs as [|c cs IH]; intros i a Ha; cbn [starts_from] in *.
  - by apply elem_of_nil in Ha.
  - destruct (is_open c).
    + apply elem_of_cons in Ha as [->|Ha].
      * exists [], (starts_from (S i) cs). split; [done|].
        intros x Hx. by apply elem_of_nil in Hx.
      * pose proof Ha as Hle. apply starts_from_spec in Hle as (_ & Hle & _).
        destruct (IH (S i) a Ha) as (l1 & l2 & Heq & Hlt).
        exists (i :: l1), l2. split; [by rewrite Heq|].
        intros x Hx. apply elem_of_cons in Hx as [->|Hx]; [lia | by apply Hlt].
    + by apply IH.
Qed.

Section ExtractorOrder.
Variable json_loads : string -> result pyval.

Lemma for_starts_first (cs : list ascii) (a : nat) (v : pyval) :
  forall l1 l2,
    (forall x, x ∈ l1 -> decoded json_loads (candidate cs x) = None) ->
    decoded json_loads (candidate cs a) = Some v ->
    for_starts json_loads cs (l1 ++ a :: l2) = v.
Proof.
  induction l1 as [|h l1 IH]; intros l2 Hnone Hv; cbn [app for_starts].
  - by rewrite scan_candidate, Hv.
  - rewrite scan_candidate, (Hnone h) by (by left).
    apply IH; [|done]. intros x Hx. apply Hnone. by right.
Qed.

Lemma for_starts_sound (cs : list ascii) (v : pyval) :
  forall starts,
    for_starts json_loads cs starts = v -> v <> PNone ->
    exists a, a ∈ starts /\ decoded json_loads (candidate cs a) = Some v.
Proof.
  induction starts as [|h starts IH]; cbn [for_starts]; intros Hv Hne.
  - congruence.
  - rewrite scan_candidate in Hv.
    destruct (decoded json_loads (candidate cs h)) as [v'|] eqn:Hh.
    + exists h. split; [by left | congruence].
    + destruct (IH Hv Hne) as (a & Ha & Hd). exists a. split; [by right | done].
Qed.

(** X15: candidates are tried from left to right and the first that
    parses wins: when a balanced span parses and every balanced span that
    starts before it fails to parse, the extractor returns its value,
    whatever follows or lies inside it. *)
Theorem extract_json_from_text_leftmost (pre span post : string) (v : pyval) :
  balanced span ->
  json_loads span = Ok v ->
  (forall pre' span' post',
     pre +:+ span +:+ post = pre' +:+ span' +:+ post' ->
     balanced span' ->
     String.length pre' < String.length pre ->
     exists e, json_loads span' = Raise e) ->
  extract_json_from_text json_loads (pre +:+ span +:+ post) = v.
Proof.
  intros Hbal Hv Hearlier. unfold extract_json_from_text.
  destruct (proj2 (candidate_balanced (pre +:+ span +:+ post) span
                     (String.length pre))) as [Hc Ha].
  { by exists pre, post. }
  destruct (starts_from_split _ _ _ Ha) as (l1 & l2 & Heq & Hlt).
  rewrite Heq. apply for_starts_first.
  - intros x Hx.
    destruct (decoded json_loads
                (candidate (list_ascii_of_string (pre +:+ span +:+ post)) x))
      as [v'|] eqn:Hd; [|done].
    assert (x ∈ starts_from 0 (list_ascii_of_string (pre +:+ span +:+ post)))
      as Hx'.
    { rewrite Heq. apply elem_of_app. by left. }
    destruct (decoded_balanced json_loads _ x v' Hx' Hd)
      as (pre' & span' & post' & Hs & Hlen & Hbal' & Hv').
    destruct (Hearlier pre' span' post' Hs Hbal') as [e He].
    + rewrite Hlen. by apply Hlt.
    + congruence.
  - rewrite Hc. cbn [decoded]. by rewrite Hv.
Qed.

(** X16: the extractor invents nothing: a result other than [None] is the
    value the decoder gives for a balanced span of the text. *)
Theorem extract_json_from_text_sound (s : string) (v : pyval) :
  extract_json_from_text json_loads s = v ->
  v <> PNone ->
  exists pre span post,
    s = pre +:+ span +:+ post /\ balanced span /\ json_loads span = Ok v.
Proof.
  unfold extract_json_from_text. intros Hv Hne.
  destruct (for_starts_sound _ _ _ Hv Hne) as (a & Ha & Hd).
  destruct (decoded_balanced json_loads s a v Ha Hd)
    as (pre & span & post & Hs & _ & Hbal & Hval).
  by exists pre, span, post.
Qed.

End ExtractorOrder.

Lemma balanced_doc_x1 : balanced doc_x1.
Proof.
  apply (balanced_chars_close_len _ []). split.
  - eexists _, _. split; reflexivity.
  - vm_compute. reflexivity.
Qed.

Lemma extract_json_from_text_leftmost_witness :
  extract_json_from_text (json_loads_table table_x1)
    ("[ " +:+ doc_x1 +:+ (" then " +:+ doc_x1 +:+ " ]")) = val_x1.
Proof.
  apply extract_json_from_text_leftmost.
  - exact balanced_doc_x1.
  - vm_compute. reflexivity.
  - intros pre' span' post' Hs _ Hlen.
    destruct (String.eqb_spec span' doc_x1) as [->|Hne].
    + exfalso. symmetry in Hs.
      destruct pre' as [|c0 [|c1 pre']]; vm_compute in Hs;
        try discriminate Hs.
      cbn in Hlen. lia.
    + eexists. unfold json_loads_table, table_x1.
      apply String.eqb_neq in Hne. rewrite Hne. reflexivity.
Defined.

Lemma extract_json_from_text_sound_witness :
  exists pre span post,
    ("ok " +:+ doc_x1 +:+ "!") = pre +:+ span +:+ post /\
    balanced span /\ json_loads_table table_x1 span = Ok val_x1.
Proof.
  apply (extract_json_from_text_sound (json_loads_table table_x1)).
  - vm_compute. reflexivity.
  - discriminate.
Defined.

(** ** The retry loop for any bound *)

Section RetryBound.
Context {LLM OS : Type}.
Variable json_loads : string -> result pyval.
Variable create_chat_completion : string -> string -> LLM -> string * LLM.

(** Generator calls leave the process launcher alone. *)
Lemma after_calls_frame (n : nat) (prompt : string) (w : world LLM OS) :
  os (after_calls create_chat_completion n prompt w) = os w /\
  launched (after_calls create_chat_completion n prompt w) = launched w.
Proof.
  revert w. induction n as [|n IH]; intros w; cbn [after_calls]; [done|].
  destruct (generate create_chat_completion prompt w) as [raw w1] eqn:Hgen.
  destruct (IH w1) as [-> ->]. unfold generate in Hgen.
  destruct (create_chat_completion _ _ _) as [raw' l].
  by injection Hgen as _ <-.
Qed.

(** The two ways the loop can end, for any number of rounds. *)
Lemma loop_outcome (n : nat) (prompt : string) :
  forall (last : pyval) (w : world LLM OS),
    (exists k raw v,
       replies create_chat_completion n prompt w !! k = Some raw /\
       succeeds json_loads raw v /\
       (forall j raw', j < k ->
          replies create_chat_completion n prompt w !! j = Some raw' ->
          exists r, fails json_loads raw' r) /\
       ask_model_loop json_loads create_chat_completion n prompt last w =
       (v, after_calls create_chat_completion (S k) prompt w)) \/
    ((forall raw, raw ∈ replies create_chat_completion n prompt w ->
        exists r, fails json_loads raw r) /\
     ask_model_loop json_loads create_chat_completion n prompt last w =
     (invalid_json
        (last_error_after json_loads last
           (replies create_chat_completion n prompt w)),
      after_calls create_chat_completion n prompt w)).
Proof.
  induction n as [|n IH]; intros last w.
  - right. split; [|done]. intros raw Hraw. by apply elem_of_nil in Hraw.
  - destruct (generate create_chat_completion prompt w) as [raw0 w1] eqn:Hgen.
    destruct (attempt_dichotomy json_loads raw0) as [[v Hv] | [r Hr]].
    + left. exists 0, raw0, v. cbn [replies after_calls]. rewrite Hgen.
      split; [done|]. split; [done|]. split; [intros j raw' Hj; lia|].
      by apply (loop_round_success json_loads create_chat_completion
                  n prompt last w w1 raw0 v).
    + rewrite (loop_round_failure json_loads create_chat_completion
                 n prompt last w w1 raw0 r Hgen Hr).
      cbn [replies after_calls]. rewrite Hgen.
      destruct (IH (PStr r) w1)
        as [(k & raw & v & Hk & Hv & Hbefore & Hrun) | [Hall Hrun]].
      * left. exists (S k), raw, v. split; [done|]. split; [done|].
        split; [|done]. intros [|j] raw' Hj Hraw'.
        -- injection Hraw' as <-. by exists r.
        -- apply (Hbefore j raw'); [lia | done].
      * right. split.
        -- intros raw Hraw. apply elem_of_cons in Hraw as [->|Hraw];
             [by exists r | by apply Hall].
        -- rewrite Hrun. unfold last_error_after. cbn [fold_left].
           by destruct Hr as (e & -> & _ & ->).
Qed.

(** X17: for any [max_retries] the loop calls the generator at most that
    many times, each time with the system prompt and the user's prompt,
    and does nothing else to the world; with a bound of zero or less it
    makes no call at all and returns the [invalid_json] error with a null
    detail. *)
Theorem ask_model_bounded (prompt : string) (max_retries : Z)
    (w w' : world LLM OS) (out : pyval) :
  ask_model json_loads create_chat_completion prompt max_retries w = (out, w') ->
  (exists k,
     (Z.of_nat k <= Z.max 0 max_retries)%Z /\
     asked w' = asked w ++ replicate k (SYSTEM_PROMPT, prompt)) /\
  os w' = os w /\ launched w' = launched w /\
  ((max_retries <= 0)%Z -> out = invalid_json PNone /\ w' = w).
Proof.
  unfold ask_model. intros Hrun.
  destruct (loop_calls json_loads create_chat_completion
              (Z.to_nat max_retries) prompt PNone w) as (k & Hk & Hw).
  rewrite Hrun in Hw. cbn [snd] in Hw. subst w'.
  destruct (after_calls_frame k prompt w) as [Hos Hlog].
  split; [|split; [done|split; [done|]]].
  - exists k. split; [lia|]. apply asked_after_calls.
  - intros Hle. assert (Z.to_nat max_retries = 0) as Hz by lia.
    rewrite Hz in Hrun, Hk. assert (k = 0) as -> by lia.
    cbn in Hrun. by injection Hrun as <-.
Qed.

(** X18: for any number of rounds the loop ends in one of two ways.
    Either some attempt is the first to succeed, and the loop returns its
    value after exactly that many generator calls; or every attempt
    fails, and the loop returns the [invalid_json] error carrying the
    last parse error after using up all its rounds. *)
Theorem ask_model_outcome (prompt : string) (max_retries : Z)
    (w : world LLM OS) :
  let n := Z.to_nat max_retries in
  let raws := replies create_chat_completion n prompt w in
  (exists k raw v,
     raws !! k = Some raw /\ succeeds json_loads raw v /\
     (forall j raw', j < k -> raws !! j = Some raw' ->
        exists r, fails json_loads raw' r) /\
     ask_model json_loads create_chat_completion prompt max_retries w =
     (v, after_calls create_chat_completion (S k) prompt w)) \/
  ((forall raw, raw ∈ raws -> exists r, fails json_loads raw r) /\
   ask_model json_loads create_chat_completion prompt max_retries w =
   (invalid_json (last_error_after json_loads PNone raws),
    after_calls create_chat_completion n prompt w)).
Proof.
  intros n raws. unfold ask_model. fold n.
  destruct (loop_outcome n prompt PNone w) as [Hfirst | Hnone].
  - left. exact Hfirst.
  - right. exact Hnone.
Qed.

End RetryBound.

Lemma ask_model_bounded_witness :
  exists out w',
    ask_model (json_loads_table table_x1) canned "hi" 0
      (world0 noisy_replies) = (out, w') /\
    out = invalid_json PNone /\ w' = world0 noisy_replies.
Proof.
  destruct (ask_model (json_loads_table table_x1) canned "hi" 0
              (world0 noisy_replies)) as [out w'] eqn:Hrun.
  exists out, w'. split; [reflexivity|].
  destruct (ask_model_bounded _ _ _ _ _ _ _ Hrun) as (_ & _ & _ & Hzero).
  apply Hzero. lia.
Defined.

Lemma ask_model_outcome_witness :
  exists w',
    ask_model (json_loads_table table_x1) canned "hi" 2
      (world0 noisy_replies) = (val_x1, w') /\
    length (asked w') = 2.
Proof.
  destruct (ask_model_outcome (json_loads_table table_x1) canned "hi" 2
              (world0 noisy_replies))
    as [(k & raw & v & Hk & Hv & _ & Hrun) | [Hall _]].
  - rewrite Hrun. destruct k as [|[|k]]; vm_compute in Hk; try discriminate.
    injection Hk as <-.
    exists (after_calls canned 2 "hi" (world0 noisy_replies)).
    split; [|vm_compute; reflexivity].
    f_equal. destruct Hv as [Hv | (e & _ & Hx & _)].
    + vm_compute in Hv. discriminate.
    + rewrite <- Hx. vm_compute. reflexivity.
  - exfalso. destruct (Hall ("Here: {" +:+ doc_x1 +:+ " ok")) as (r & e & _ & Hx & _).
    + vm_compute. right. left.
    + vm_compute in Hx. discriminate.
Defined.

(** ** One request, end to end *)

Section AskFacts.
Context {LLM OS : Type}.
Variable json_loads : string -> result pyval.
Variable create_chat_completion : string -> string -> LLM -> string * LLM.
Variable subprocess_run : string -> OS -> result completed_process * OS.

(** The error of an exhausted retry loop passes through the envelope
    builder. *)
Lemma process_invalid_json (detail : pyval) (w : world LLM OS) :
  process_agent_output subprocess_run (invalid_json detail) w
  = (Ok (invalid_json detail), w).
Proof. reflexivity. Qed.

Lemma process_non_mapping (x : pyval) (w : world LLM OS) :
  is_dict x = false ->
  process_agent_output subprocess_run x w =
  (Ok (PDict (<["error" := PStr "invalid_json_type"]>
              (<["detail" := PStr (type_str x)]> ∅))), w).
Proof. intros Hx. by destruct x. Qed.

Lemma process_error_mapping (d : gmap string pyval) (w : world LLM OS) :
  is_Some (d !! "error") ->
  process_agent_output subprocess_run (PDict d) w = (Ok (PDict d), w).
Proof.
  intros Herr. unfold process_agent_output, mbind, M_bind, lift, mret, M_ret.
  unfold _coerce_agent_json, dict_has. rewrite bool_decide_true by done.
  cbn [py_contains]. by rewrite bool_decide_true.
Qed.

(** What the runner does to the log of launched commands. *)
Lemma execute_command_log (command : pyval) (w w' : world LLM OS)
    (r : result pyval) :
  execute_command subprocess_run command w = (r, w') ->
  asked w' = asked w /\
  (launched w' = launched w \/
   exists s, launched w' = launched w ++ [s] /\
             is_safe_command (PStr s) = Ok true /\ ~ blank s).
Proof.
  intros Hrun.
  destruct (is_safe_command command) as [[|]|e] eqn:Hsafe;
    try (unfold execute_command in Hrun; rewrite Hsafe in Hrun;
         injection Hrun as _ <-; by auto).
  destruct command as [| | | |s| |];
    try (unfold execute_command in Hrun; rewrite Hsafe in Hrun;
         injection Hrun as _ <-; by auto).
  destruct (blank_dec s) as [Hb|Hnb].
  - rewrite execute_command_missing in Hrun by done.
    injection Hrun as _ <-. auto.
  - rewrite execute_command_run in Hrun by done. unfold run_process in Hrun.
    destruct (subprocess_run s (os w)) as [[cp|e] o];
      injection Hrun as _ <-; cbn; (split; [done|]); right; by exists s.
Qed.

(** What the envelope builder does to the world. *)
Lemma process_effect (x : pyval) (w w' : world LLM OS) (r : result pyval) :
  process_agent_output subprocess_run x w = (r, w') ->
  asked w' = asked w /\
  (launched w' = launched w \/
   exists s, launched w' = launched w ++ [s] /\
             is_safe_command (PStr s) = Ok true /\ ~ blank s).
Proof.
  intros Hrun. destruct (is_dict x) eqn:Hx.
  - destruct x as [| | | | | |d]; try discriminate.
    destruct (d !! "error") as [v|] eqn:Herr.
    + rewrite process_error_mapping in Hrun by (by eexists).
      injection Hrun as _ <-. auto.
    + rewrite process_mapping in Hrun by done.
      destruct (String.eqb (resolved_action d) "command").
      * destruct (execute_command subprocess_run (command_of d) w)
          as [r0 w0] eqn:Hex.
        apply execute_command_log in Hex.
        destruct r0; injection Hrun as _ <-; exact Hex.
      * injection Hrun as _ <-. auto.
  - rewrite process_non_mapping in Hrun by done.
    injection Hrun as _ <-. auto.
Qed.

(** X19: a reply that parses to something other than a mapping (a list,
    a number, a string, null) is not acted upon: the request ends with the
    [invalid_json_type] error naming the type, and nothing is launched. *)
Theorem ask_non_mapping (prompt : string) (w w1 : world LLM OS) (out : pyval) :
  ask_model json_loads create_chat_completion prompt max_retries_default w
    = (out, w1) ->
  is_dict out = false ->
  ask json_loads create_chat_completion subprocess_run prompt w =
  (Ok (PDict (<["error" := PStr "invalid_json_type"]>
              (<["detail" := PStr (type_str out)]> ∅))), w1) /\
  launched w1 = launched w.
Proof.
  intros Hask Hout. unfold ask. rewrite Hask. split.
  - by apply process_non_mapping.
  - unfold ask_model in Hask.
    destruct (loop_calls json_loads create_chat_completion
                (Z.to_nat max_retries_default) prompt PNone w)
      as (k & _ & Hw).
    rewrite Hask in Hw. cbn [snd] in Hw. subst w1.
    apply after_calls_frame.
Qed.

(** X20: when all three attempts fail, the request ends with the
    [invalid_json] error carrying the last parse error, after exactly
    three generator calls, and nothing is launched. *)
Theorem ask_exhausted (prompt : string) (w : world LLM OS) :
  (forall raw, raw ∈ replies create_chat_completion 3 prompt w ->
     ~ exists v, succeeds json_loads raw v) ->
  ask json_loads create_chat_completion subprocess_run prompt w =
  (Ok (invalid_json
         (last_error_after json_loads PNone
            (replies create_chat_completion 3 prompt w))),
   after_calls create_chat_completion 3 prompt w) /\
  asked (after_calls create_chat_completion 3 prompt w) =
    asked w ++ replicate 3 (SYSTEM_PROMPT, prompt) /\
  launched (after_calls create_chat_completion 3 prompt w) = launched w.
Proof.
  intros Hall. split; [|split].
  - unfold ask, ask_model, max_retries_default. change (Z.to_nat 3) with 3.
    rewrite (loop_all_fail json_loads create_chat_completion 3 prompt PNone w).
    + apply process_invalid_json.
    + intros raw Hraw.
      destruct (attempt_dichotomy json_loads raw) as [Hv | Hr]; [|done].
      by destruct (Hall raw Hraw).
  - apply asked_after_calls.
  - apply after_calls_frame.
Qed.

(** X21: whatever the generator replies, one request calls the generator
    at most three times and launches at most one process; a process is
    launched only for a command string that the safety gate accepts and
    that is not blank. *)
Theorem ask_launch_safety (prompt : string) (w w' : world LLM OS)
    (r : result pyval) :
  ask json_loads create_chat_completion subprocess_run prompt w = (r, w') ->
  (exists k, k <= 3 /\
     asked w' = asked w ++ replicate k (SYSTEM_PROMPT, prompt)) /\
  (launched w' = launched w \/
   exists s, launched w' = launched w ++ [s] /\
             is_safe_command (PStr s) = Ok true /\ ~ blank s).
Proof.
  unfold ask. intros Hrun.
  destruct (ask_model json_loads create_chat_completion prompt
              max_retries_default w) as [out w1] eqn:Hask.
  unfold ask_model, max_retries_default in Hask.
  change (Z.to_nat 3) with 3 in Hask.
  destruct (loop_calls json_loads create_chat_completion 3 prompt PNone w)
    as (k & Hk & Hw).
  rewrite Hask in Hw. cbn [snd] in Hw. subst w1.
  destruct (after_calls_frame create_chat_completion k prompt w)
    as [_ Hlog].
  apply process_effect in Hrun as [Hasked Hlaunch].
  rewrite Hlog in Hlaunch. split; [|exact Hlaunch].
  exists k. split; [done|]. rewrite Hasked. apply asked_after_calls.
Qed.

End AskFacts.

Lemma ask_non_mapping_witness :
  ask (json_loads_table [("[1]", PList [PInt 1])]) canned echo_run "hi"
    (world0 ["[1]"]) =
  (Ok (PDict (<["error" := PStr "invalid_json_type"]>
              (<["detail" := PStr "<class 'list'>"]> ∅))),
   {| llm := []; os := tt; asked := [(SYSTEM_PROMPT, "hi")]; launched := [] |}).
Proof.
  apply (ask_non_mapping (json_loads_table [("[1]", PList [PInt 1])])
           canned echo_run "hi" (world0 ["[1]"]) _ (PList [PInt 1])).
  - vm_compute. reflexivity.
  - reflexivity.
Defined.

Lemma ask_exhausted_witness :
  exists w',
    ask (json_loads_table table_x1) canned echo_run "hi"
      (world0 garbage_replies) =
    (Ok (invalid_json (PStr "Expecting value: line 1 column 1 (char 0)")), w') /\
    launched w' = [].
Proof.
  destruct (ask_exhausted (json_loads_table table_x1) canned echo_run "hi"
              (world0 garbage_replies)) as (Hrun & _ & Hlog).
  - assert (replies canned 3 "hi" (world0 garbage_replies) = garbage_replies)
      as -> by (vm_compute; reflexivity).
    unfold garbage_replies.
    intros raw' Hraw' [v' [Hv | (e & _ & Hx & Hv)]];
      rewrite !elem_of_cons, elem_of_nil in Hraw';
      decompose [or] Hraw'; subst; try done.
    all: try (vm_compute in Hv; discriminate).
    all: vm_compute in Hx; congruence.
  - eexists. split; [exact Hrun | exact Hlog].
Defined.

Lemma ask_launch_safety_witness :
  exists r w',
    ask (json_loads_table [("run", PDict dir_request)]) canned echo_run "hi"
      (world0 ["run"]) = (r, w') /\
    launched w' = ["dir"] /\ is_safe_command (PStr "dir") = Ok true.
Proof.
  destruct (ask (json_loads_table [("run", PDict dir_request)]) canned
              echo_run "hi" (world0 ["run"])) as [r w'] eqn:Hrun.
  exists r, w'. split; [reflexivity|].
  destruct (ask_launch_safety _ _ _ _ _ _ _ Hrun)
    as (_ & [Hsame | (s & Hlog & Hsafe & _)]).
  - vm_compute in Hrun. injection Hrun as _ <-. discriminate.
  - assert (launched w' = ["dir"]) as Hdir
      by (vm_compute in Hrun; by injection Hrun as _ <-).
    split; [exact Hdir|]. rewrite Hdir in Hlog.
    assert (s = "dir") as -> by (cbn in Hlog; congruence).
    exact Hsafe.
Defined.

(** ** The command-line entry point *)

Section MainFacts.
Context {LLM OS : Type}.
Variable json_loads : string -> result pyval.
Variable create_chat_completion : string -> string -> LLM -> string * LLM.
Variable subprocess_run : string -> OS -> result completed_process * OS.
Variable json_dumps : pyval -> string.

(** The user section of an envelope without an [expose_to_user] key. *)
Lemma user_section_no_flag (env : gmap string pyval) (console : list string) :
  env !! "expose_to_user" = None ->
  user_section json_dumps (PDict env) console =
  (Ok tt, console ++ [USER_HEADER; NO_RESPONSE]).
Proof.
  intros Hflag. unfold user_section. cbn [py_get]. unfold dict_get_or.
  by rewrite Hflag.
Qed.

(** The user section of an answer envelope. *)
Lemma user_section_answer (plan data : pyval) (b : bool)
    (console : list string) :
  user_section json_dumps
    (PDict (<["data" := data]>
            (<["plan" := plan]> (<["expose_to_user" := PBool b]> ∅)))) console =
  (Ok tt,
   console ++ [USER_HEADER; if b then json_dumps data else NO_RESPONSE]).
Proof.
  unfold user_section. cbn [py_get py_contains py_getitem].
  unfold dict_get_or, dict_getitem.
  rewrite lookup_insert_ne, lookup_insert_ne, lookup_insert_eq by done.
  cbn [default from_option id py_truthy]. destruct b; [|done].
  rewrite bool_decide_true by (rewrite lookup_insert_eq; by eexists).
  rewrite lookup_insert_eq. by rewrite <- app_assoc.
Qed.

(** The user section of a command envelope. *)
Lemma user_section_command (plan execution : pyval) (b : bool)
    (console : list string) :
  user_section json_dumps
    (PDict (<["execution" := execution]>
            (<["plan" := plan]> (<["expose_to_user" := PBool b]> ∅)))) console =
  (Ok tt,
   console ++ [USER_HEADER; if b then json_dumps execution else NO_RESPONSE]).
Proof.
  unfold user_section. cbn [py_get py_contains py_getitem].
  unfold dict_get_or, dict_getitem.
  rewrite lookup_insert_ne, lookup_insert_ne, lookup_insert_eq by done.
  cbn [default from_option id py_truthy]. destruct b; [|done].
  rewrite bool_decide_false.
  2: { rewrite !lookup_insert_ne, lookup_empty by done. by intros [? ?]. }
  rewrite bool_decide_true by (rewrite lookup_insert_eq; by eexists).
  rewrite lookup_insert_eq. by rewrite <- app_assoc.
Qed.

(** X22: an error of the controller itself is never shown to the user:
    when the retry loop ends with a value that is not a mapping, or with
    the [invalid_json] error, [main] prints the prompt, the internal
    header, the error envelope, the user header and the no-response line,
    and nothing else. *)
Theorem main_hides_errors (user_prompt : string) (w w1 : world LLM OS)
    (out : pyval) (console : list string) :
  ask_model json_loads create_chat_completion user_prompt
    max_retries_default w = (out, w1) ->
  is_dict out = false \/ (exists detail, out = invalid_json detail) ->
  exists final,
    process_agent_output subprocess_run out w1 = (Ok final, w1) /\
    main json_loads create_chat_completion subprocess_run json_dumps
      user_prompt w console =
    (Ok tt, w1,
     console ++ [">> "; INTERNAL_HEADER; json_dumps final;
                 USER_HEADER; NO_RESPONSE]).
Proof.
  intros Hask Hout. unfold main. rewrite Hask.
  destruct Hout as [Hx | [detail ->]].
  - rewrite process_non_mapping by done. eexists. split; [reflexivity|].
    rewrite user_section_no_flag by done.
    by rewrite <- !app_assoc.
  - rewrite process_invalid_json. eexists. split; [reflexivity|].
    unfold invalid_json. rewrite user_section_no_flag by done.
    by rewrite <- !app_assoc.
Qed.

(** X23: for a reply that is a mapping without an [error] key, [main]
    always prints the full envelope in the internal section; the user
    section shows the payload ([data] on the answer path, the execution
    result on the command path) exactly when the normalized
    [expose_to_user] is true, and the no-response line when it is false.
    The flag only gates what is printed: the world is the one left by the
    envelope builder, command included. *)
Theorem main_visibility (user_prompt : string) (w w1 : world LLM OS)
    (d0 : gmap string pyval) (console : list string) :
  ask_model json_loads create_chat_completion user_prompt
    max_retries_default w = (PDict d0, w1) ->
  d0 !! "error" = None ->
  exists env w2 payload b,
    process_agent_output subprocess_run (PDict d0) w1 = (Ok (PDict env), w2) /\
    expose_of d0 = PBool b /\
    (env !! "data" = Some payload \/
     (env !! "data" = None /\ env !! "execution" = Some payload)) /\
    main json_loads create_chat_completion subprocess_run json_dumps
      user_prompt w console =
    (Ok tt, w2,
     console ++ [">> "; INTERNAL_HEADER; json_dumps (PDict env);
                 USER_HEADER; if b then json_dumps payload else NO_RESPONSE]).
Proof.
  intros Hask Herr. unfold main. rewrite Hask, process_mapping by done.
  destruct (expose_of_bool d0) as [b Hb]. rewrite Hb.
  destruct (String.eqb (resolved_action d0) "command") eqn:Hact.
  - assert (is_str (command_of d0) = true \/ command_of d0 = PNone) as Hc.
    { unfold command_of. rewrite Hact.
      destruct (is_str (dict_get d0 "command")) eqn:E; auto. }
    destruct (execute_command_returns subprocess_run _ w1 Hc)
      as (ex & w2 & ->).
    eexists _, w2, ex, b. split; [reflexivity|]. split; [done|]. split.
    + right. split; [|by rewrite lookup_insert_eq].
      by rewrite !lookup_insert_ne, lookup_empty.
    + rewrite user_section_command. by rewrite <- !app_assoc.
  - eexists _, w1, (data_of d0), b. split; [reflexivity|]. split; [done|].
    split; [left; by rewrite lookup_insert_eq|].
    rewrite user_section_answer. by rewrite <- !app_assoc.
Qed.

End MainFacts.

Lemma main_hides_errors_witness :
  exists final w1,
    main (json_loads_table table_x1) canned echo_run dumps_kind "hi"
      (world0 garbage_replies) [] =
    (Ok tt, w1,
     [">> "; INTERNAL_HEADER; dumps_kind final; USER_HEADER; NO_RESPONSE]).
Proof.
  destruct (ask_model (json_loads_table table_x1) canned "hi"
              max_retries_default (world0 garbage_replies))
    as [out w1] eqn:Hask.
  destruct (main_hides_errors (json_loads_table table_x1) canned echo_run
              dumps_kind "hi" _ _ _ [] Hask) as (final & _ & Hmain).
  - right. vm_compute in Hask. injection Hask as <- _.
    eexists. reflexivity.
  - exists final, w1. exact Hmain.
Defined.

Lemma main_visibility_witness :
  exists w2,
    main (json_loads_table [("run", PDict dir_request)]) canned echo_run
      dumps_kind "hi" (world0 ["run"]) [] =
    (Ok tt, w2,
     [">> "; INTERNAL_HEADER; "<dict>"; USER_HEADER; "<dict>"]) /\
    launched w2 = ["dir"].
Proof.
  destruct (main_visibility (json_loads_table [("run", PDict dir_request)])
              canned echo_run dumps_kind "hi" (world0 ["run"])
              {| llm := []; os := tt; asked := [(SYSTEM_PROMPT, "hi")];
                 launched := [] |} dir_request [])
    as (env & w2 & payload & b & Hproc & Hb & Hpay & Hmain).
  - vm_compute. reflexivity.
  - reflexivity.
  - vm_compute in Hproc. injection Hproc as <- <-.
    vm_compute in Hb. injection Hb as <-.
    destruct Hpay as [Hpay | [_ Hpay]]; vm_compute in Hpay; [discriminate|].
    injection Hpay as <-. eexists. split; [exact Hmain | reflexivity].
Defined.
